(** * Industrial defect detection scanner: detector and report generator

    A shallow embedding of [src/defect_detector.py] and
    [src/report_generator.py].

    - Python [float]s are IEEE binary64 numbers: Rocq's primitive [float].
    - Python [int]s are [Z]; Python [str]s are [string]s (UTF-8 bytes).
    - Exceptions are explicit ([result]); numpy arrays live in a heap of
      mutable objects addressed by reference, so that aliasing between the
      input image and the annotated image is visible.
    - An insertion-ordered Python [dict] with string keys is an association
      list without repeated keys.
    - OpenCV ([cv2]) and numpy are not part of the repository: the functions
      the detector calls are the fields of the interface [CV2]. *)

From Stdlib Require Import ZArith List String Ascii Bool Lia.
From Stdlib Require Import Floats DecimalString.
Import ListNotations.

Local Open Scope string_scope.
Local Open Scope list_scope.
Local Open Scope Z_scope.

Set Warnings "-inexact-float".

(** ** Python floats *)

Module PyFloat.

(** The comparison operators [<], [>], [<=], [>=], [==] on floats. *)
Definition flt (x y : float) : bool := PrimFloat.ltb x y.
Definition fgt (x y : float) : bool := PrimFloat.ltb y x.
Definition fle (x y : float) : bool := PrimFloat.leb x y.
Definition fge (x y : float) : bool := PrimFloat.leb y x.
Definition feq (x y : float) : bool := PrimFloat.eqb x y.

(** [float(n)] for an integer [n]: the nearest binary64 number. *)
Definition float_of_int (n : Z) : float :=
  SF2Prim (binary_normalize prec emax n 0 false).

(** [np.pi] *)
Definition np_pi : float := 0x1.921fb54442d18p+1%float.

(** *** Fixed-point formatting: [f"{x:.<d>f}"]

    The decimal expansion of the exact binary value, rounded to [d] digits
    after the point, ties to even; the sign of the float is kept. *)

Definition round_half_even (num den : Z) : Z :=
  let q := num / den in
  let r := num mod den in
  match 2 * r ?= den with
  | Lt => q
  | Gt => q + 1
  | Eq => if Z.even q then q else q + 1
  end.

Definition str_int (n : Z) : string := NilZero.string_of_int (Z.to_int n).

Fixpoint zeros (n : nat) : string :=
  match n with O => "" | S n' => String "0" (zeros n') end.

Definition pad_left (d : nat) (s : string) : string :=
  (zeros (d - String.length s) ++ s)%string.

Definition fixed_digits (d : nat) (q : Z) : string :=
  let unit := 10 ^ Z.of_nat d in
  match d with
  | O => str_int q
  | S _ => (str_int (q / unit) ++ "." ++ pad_left d (str_int (q mod unit)))%string
  end.

Definition format_f (d : nat) (x : float) : string :=
  match Prim2SF x with
  | S754_nan => "nan"
  | S754_infinity s => if s then "-inf" else "inf"
  | S754_zero s => ((if s then "-" else "") ++ fixed_digits d 0)%string
  | S754_finite s m e =>
      let scaled := Z.pos m * 10 ^ Z.of_nat d in
      let q := if (0 <=? e)%Z then scaled * 2 ^ e
               else round_half_even scaled (2 ^ (- e)) in
      ((if s then "-" else "") ++ fixed_digits d q)%string
  end.

(** [sum(xs)]: accumulation from the left, starting at 0 (CPython's loop
    over floats; from 3.12 on it carries a compensation term as well, which
    can change the last bits of the result). *)
Definition py_sum (xs : list float) : float :=
  fold_left (fun acc x => (acc + x)%float) xs 0%float.

End PyFloat.
Import PyFloat.

(** ** Exceptions *)

Inductive exn : Type :=
| CvError            (* cv2.error, or an argument that is not an array *)
| ZeroDivisionError.

Inductive result (A : Type) : Type :=
| Ok (a : A)
| Raise (e : exn).
Arguments Ok {A} a.
Arguments Raise {A} e.

(** [a / b] on two floats. *)
Definition truediv (a b : float) : result float :=
  if feq b 0%float then Raise ZeroDivisionError else Ok (a / b)%float.

(** [a / n] for a float [a] and an integer [n]: [n] is converted to a float,
    which is zero exactly when [n] is. *)
Definition truediv_int (a : float) (n : Z) : result float :=
  if n =? 0 then Raise ZeroDivisionError else Ok (a / float_of_int n)%float.

(** ** Python dicts with string keys, in insertion order *)

Module PyDict.

Definition dict (V : Type) : Type := list (string * V).

(** [d.get(k, default)] *)
Fixpoint get {V} (d : dict V) (k : string) (default : V) : V :=
  match d with
  | [] => default
  | (k', v) :: d' => if String.eqb k' k then v else get d' k default
  end.

(** [d[k] = v]: an existing key keeps its place, a new one goes last. *)
Fixpoint set {V} (d : dict V) (k : string) (v : V) : dict V :=
  match d with
  | [] => [(k, v)]
  | (k', v') :: d' =>
      if String.eqb k' k then (k', v) :: d' else (k', v') :: set d' k v
  end.

Definition keys {V} (d : dict V) : list string := map fst d.
Definition values {V} (d : dict V) : list V := map snd d.

End PyDict.

(** ** The OpenCV / numpy interface *)

Definition color : Type := Z * Z * Z.
Definition point : Type := Z * Z.

Definition COLOR_BGR2GRAY : Z := 6.
Definition RETR_EXTERNAL : Z := 0.
Definition CHAIN_APPROX_SIMPLE : Z := 2.
Definition FONT_HERSHEY_SIMPLEX : Z := 0.

Class CV2 : Type := {
  ndarray : Type;                 (* the pixel data of an array *)
  Contour : Type;                 (* one boundary returned by findContours *)
  np_ones : Z * Z -> ndarray;
  cvtColor : ndarray -> Z -> result ndarray;
  GaussianBlur : ndarray -> Z * Z -> Z -> result ndarray;
  Canny : ndarray -> Z -> Z -> result ndarray;
  dilate : ndarray -> ndarray -> Z -> result ndarray;
  findContours : ndarray -> Z -> Z -> result (list Contour);
  contourArea : Contour -> float;
  boundingRect : Contour -> Z * Z * Z * Z;
  arcLength : Contour -> bool -> float;
  drawContours : ndarray -> list Contour -> Z -> color -> Z -> result ndarray;
  rectangle : ndarray -> point -> point -> color -> Z -> result ndarray;
  putText : ndarray -> string -> point -> Z -> float -> color -> Z -> result ndarray
}.

(** ** The classifier: [DefectDetector._classify_defect] *)

Definition _classify_defect (area_mm aspect_ratio circularity : float) : string :=
  if fgt aspect_ratio 3.0%float || flt aspect_ratio 0.33%float then "Crack"
  else if fgt circularity 0.7%float then "Hole"
  else if flt circularity 0.3%float then "Irregular Shape"
  else if flt 10%float area_mm && flt area_mm 50%float then "Misalignment"
  else if fgt area_mm 50%float then "Large Defect"
  else "Small Defect".

(** [DefectDetector._get_defect_color] *)
Definition colors : PyDict.dict color :=
  [ ("Crack", (0, 0, 255));
    ("Hole", (255, 0, 0));
    ("Irregular Shape", (0, 165, 255));
    ("Misalignment", (0, 255, 255));
    ("Large Defect", (255, 0, 255));
    ("Small Defect", (0, 255, 0)) ].

Definition _get_defect_color (defect_type : string) : color :=
  PyDict.get colors defect_type (255, 255, 255).

(** Line 70: [float(w) / h if h > 0 else 0]. *)
Definition aspect_ratio_of (w h : Z) : result float :=
  if h >? 0 then truediv_int (float_of_int w) h else Ok 0%float.

(** Lines 74-77: [4 * np.pi * area_pixels / (perimeter * perimeter)] when
    [perimeter > 0], else 0. *)
Definition circularity_of (area_pixels perimeter : float) : result float :=
  if fgt perimeter 0%float
  then truediv (4 * np_pi * area_pixels)%float (perimeter * perimeter)%float
  else Ok 0%float.

(** ** The heap of arrays and the monad of the detector

    A reference is an index into the heap. Every call either returns a value
    or raises; in both cases the heap it leaves behind is part of the
    outcome. *)

Section Detector.

Context {cv : CV2}.

Definition ref : Type := nat.
Definition heap : Type := list ndarray.

Definition M (A : Type) : Type := heap -> heap * result A.

Definition ret {A} (a : A) : M A := fun h => (h, Ok a).

Definition bind {A B} (m : M A) (k : A -> M B) : M B :=
  fun h =>
    match m h with
    | (h', Ok a) => k a h'
    | (h', Raise e) => (h', Raise e)
    end.

Definition lift {A} (r : result A) : M A := fun h => (h, r).

Notation "x <- m ;; k" := (bind m (fun x => k))
  (at level 61, m at next level, right associativity).
Notation "m ;; k" := (bind m (fun _ => k))
  (at level 61, right associativity).

(** Reading the array behind a reference. *)
Definition load (r : ref) : M ndarray :=
  fun h =>
    match nth_error h r with
    | Some a => (h, Ok a)
    | None => (h, Raise CvError)
    end.

(** A new array object. *)
Definition alloc (a : ndarray) : M ref :=
  fun h => (h ++ [a], Ok (List.length h)).

Fixpoint update (h : heap) (r : ref) (a : ndarray) : heap :=
  match h, r with
  | [], _ => []
  | _ :: h', O => a :: h'
  | b :: h', S r' => b :: update h' r' a
  end.

(** Overwriting the pixels of an existing array, in place. *)
Definition store (r : ref) (a : ndarray) : M unit :=
  fun h => (update h r a, Ok tt).

(** A cv2 function that reads [src] and returns a new array. *)
Definition cv_new (f : ndarray -> result ndarray) (src : ref) : M ref :=
  a <- load src ;; b <- lift (f a) ;; alloc b.

(** A cv2 function that draws on [img] in place. *)
Definition cv_draw (f : ndarray -> result ndarray) (img : ref) : M unit :=
  a <- load img ;; b <- lift (f a) ;; store img b.

(** [image.copy()] *)
Definition np_copy (image : ref) : M ref :=
  a <- load image ;; alloc a.

(** [for x in xs: s = body(s, x)] *)
Fixpoint for_each {A S} (body : S -> A -> M S) (xs : list A) (s : S) : M S :=
  match xs with
  | [] => ret s
  | x :: xs' => s' <- body s x ;; for_each body xs' s'
  end.

(** ** [DefectDetector] *)

Record DefectDetector : Type := {
  min_defect_size : float;
  edge_threshold1 : Z;
  edge_threshold2 : Z
}.

(** [__init__] with its default arguments. *)
Definition init : DefectDetector :=
  {| min_defect_size := 5.0%float; edge_threshold1 := 50; edge_threshold2 := 150 |}.

Definition update_thresholds (self : DefectDetector) (threshold1 threshold2 : Z)
  : DefectDetector :=
  {| min_defect_size := min_defect_size self;
     edge_threshold1 := threshold1;
     edge_threshold2 := threshold2 |}.

Definition update_min_defect_size (self : DefectDetector) (size : float)
  : DefectDetector :=
  {| min_defect_size := size;
     edge_threshold1 := edge_threshold1 self;
     edge_threshold2 := edge_threshold2 self |}.

(** One entry of [defects]: the dict built at lines 82-90. *)
Record defect : Type := {
  d_type : string;
  d_area_mm : float;
  d_area_pixels : float;
  d_bbox : Z * Z * Z * Z;
  d_aspect_ratio : float;
  d_circularity : float;
  d_contour : Contour
}.

Record statistics : Type := {
  total_defects : Z;
  total_area_mm : float;
  defect_types : PyDict.dict Z;
  pass : bool;
  fail : bool
}.

(** The dict returned by [detect_defects]. *)
Record detection : Type := {
  defects : list defect;
  annotated_image : ref;
  stats : statistics
}.

(** Lines 37-51: grayscale, blur, Canny, dilation, external contours. *)
Definition find_contours (self : DefectDetector) (image : ref) : M (list Contour) :=
  gray <- cv_new (fun a => cvtColor a COLOR_BGR2GRAY) image ;;
  blurred <- cv_new (fun a => GaussianBlur a (5, 5) 0) gray ;;
  edges <- cv_new (fun a => Canny a (edge_threshold1 self) (edge_threshold2 self))
             blurred ;;
  kernel <- alloc (np_ones (3, 3)) ;;
  k <- load kernel ;;
  dilated <- cv_new (fun a => dilate a k 1) edges ;;
  a <- load dilated ;;
  lift (findContours a RETR_EXTERNAL CHAIN_APPROX_SIMPLE).

(** Lines 58-102: the body of [for contour in contours]. *)
Definition visit_contour (self : DefectDetector) (annotated_image : ref)
    (defects : list defect) (contour : Contour) : M (list defect) :=
  let area_pixels := contourArea contour in
  let area_mm := (area_pixels * 0.1)%float in
  if flt area_mm (min_defect_size self) then ret defects   (* continue *)
  else
    let '(x, y, w, h) := boundingRect contour in
    aspect_ratio <- lift (aspect_ratio_of w h) ;;
    let perimeter := arcLength contour true in
    circularity <- lift (circularity_of area_pixels perimeter) ;;
    let defect_type := _classify_defect area_mm aspect_ratio circularity in
    let defect :=
      {| d_type := defect_type;
         d_area_mm := area_mm;
         d_area_pixels := area_pixels;
         d_bbox := (x, y, w, h);
         d_aspect_ratio := aspect_ratio;
         d_circularity := circularity;
         d_contour := contour |} in
    let defects := defects ++ [defect] in
    let color := _get_defect_color defect_type in
    cv_draw (fun a => drawContours a [contour] (-1) color 2) annotated_image ;;
    cv_draw (fun a => rectangle a (x, y) (x + w, y + h) color 2) annotated_image ;;
    let label := (defect_type ++ ": " ++ format_f 1 area_mm ++ "mm²")%string in
    cv_draw (fun a => putText a label (x, y - 10) FONT_HERSHEY_SIMPLEX 0.5%float color 2)
      annotated_image ;;
    ret defects.

(** Lines 109-110: the body of the counting loop. *)
Definition bump (defect_types : PyDict.dict Z) (defect : defect) : PyDict.dict Z :=
  let defect_type := d_type defect in
  PyDict.set defect_types defect_type (PyDict.get defect_types defect_type 0 + 1).

(** Lines 107-110: counting the defects of each type. *)
Definition count_types (defects : list defect) : PyDict.dict Z :=
  fold_left bump defects [].

Definition detect_defects (self : DefectDetector) (image : ref) : M detection :=
  contours <- find_contours self image ;;
  annotated_image <- np_copy image ;;
  defects <- for_each (visit_contour self annotated_image) contours [] ;;
  let total_defects := Z.of_nat (List.length defects) in
  let total_area := py_sum (map d_area_mm defects) in
  let defect_types := count_types defects in
  ret {| defects := defects;
         annotated_image := annotated_image;
         stats :=
           {| total_defects := total_defects;
              total_area_mm := total_area;
              defect_types := defect_types;
              pass := total_defects =? 0;
              fail := total_defects >? 0 |} |}.

End Detector.

(** ** [ReportGenerator]

    The report is the sequence of rows handed to [csv.writer.writerow], each
    cell as [str] renders it. The clock and [pathlib] are outside the
    repository: [strftime_now fmt] stands for [datetime.now().strftime(fmt)],
    [path_join] for [/] on paths and [path_str] for [str(Path(p))]. *)

Section Report.

Context {cv : CV2}.
Variable strftime_now : string -> string.
Variable path_join : string -> string -> string.
Variable path_str : string -> string.

Definition row : Type := list string.
Definition csv_file : Type := list row.

(** [writer.writerow(r)] *)
Definition writerow (f : csv_file) (r : row) : csv_file := f ++ [r].

(** [enumerate(xs, start)] *)
Fixpoint enumerate {A} (xs : list A) (start : Z) : list (Z * A) :=
  match xs with
  | [] => []
  | x :: xs' => (start, x) :: enumerate xs' (start + 1)
  end.

Record ReportGenerator : Type := { report_dir : string }.

(** Returns the path of the report and the rows written to it. *)
Definition generate_report (self : ReportGenerator) (image_name : string)
    (detection_results : detection) (output_file : option string)
  : string * csv_file :=
  let output_file :=
    match output_file with
    | None =>
        let timestamp := strftime_now "%Y%m%d_%H%M%S" in
        path_join (report_dir self) ("defect_report_" ++ timestamp ++ ".csv")%string
    | Some p => p
    end in
  let defects := defects detection_results in
  let statistics := stats detection_results in
  let f : csv_file := [] in
  (* Header *)
  let f := writerow f ["Industrial Defect Detection Report"] in
  let f := writerow f ["Generated:"; strftime_now "%Y-%m-%d %H:%M:%S"] in
  let f := writerow f ["Image:"; image_name] in
  let f := writerow f [] in
  (* Summary *)
  let f := writerow f ["Summary"] in
  let f := writerow f ["Total Defects:"; str_int (total_defects statistics)] in
  let f := writerow f ["Total Defect Area (mm²):";
                       format_f 2 (total_area_mm statistics)] in
  let f := writerow f ["Status:"; if pass statistics then "PASS" else "FAIL"] in
  let f := writerow f [] in
  (* Defect types breakdown *)
  let f := writerow f ["Defect Types Breakdown"] in
  let f := fold_left
             (fun f '(defect_type, count) => writerow f [defect_type; str_int count])
             (defect_types statistics) f in
  let f := writerow f [] in
  (* Detailed defect list *)
  let f := writerow f ["Detailed Defect List"] in
  let f := writerow f
             ["ID"; "Type"; "Area (mm²)"; "Area (pixels)";
              "X"; "Y"; "Width"; "Height"; "Aspect Ratio"; "Circularity"] in
  let f := fold_left
             (fun f '(i, defect) =>
                let '(x, y, w, h) := d_bbox defect in
                writerow f
                  [str_int i;
                   d_type defect;
                   format_f 2 (d_area_mm defect);
                   format_f 2 (d_area_pixels defect);
                   str_int x; str_int y; str_int w; str_int h;
                   format_f 2 (d_aspect_ratio defect);
                   format_f 2 (d_circularity defect)])
             (enumerate defects 1) f in
  (path_str output_file, f).

End Report.

(** ** The six rules of the classifier, as the specification numbers them *)

Definition rule1 (aspect_ratio : float) : bool :=
  fgt aspect_ratio 3.0%float || flt aspect_ratio 0.33%float.
Definition rule2 (circularity : float) : bool := fgt circularity 0.7%float.
Definition rule3 (circularity : float) : bool := flt circularity 0.3%float.
Definition rule4 (area_mm : float) : bool :=
  flt 10%float area_mm && flt area_mm 50%float.
Definition rule5 (area_mm : float) : bool := fgt area_mm 50%float.

(** ** What the detector's loop does to one region, as pure functions *)

Section Views.

Context {cv : CV2}.

(** The size filter of line 63: a region is kept unless its area is below
    the minimum. *)
Definition keeps (self : DefectDetector) (contour : Contour) : bool :=
  negb (flt (contourArea contour * 0.1)%float (min_defect_size self)).

(** [describes contour d]: [d] records the measurements of [contour]. *)
Definition describes (contour : Contour) (d : defect) : Prop :=
  d_contour d = contour /\
  d_area_pixels d = contourArea contour /\
  d_area_mm d = (contourArea contour * 0.1)%float /\
  d_bbox d = boundingRect contour /\
  (let '(_, _, w, h) := boundingRect contour in
   aspect_ratio_of w h = Ok (d_aspect_ratio d)) /\
  circularity_of (contourArea contour) (arcLength contour true)
    = Ok (d_circularity d) /\
  d_type d = _classify_defect (d_area_mm d) (d_aspect_ratio d) (d_circularity d).

(** The text of the label of line 100. *)
Definition label_of (d : defect) : string :=
  (d_type d ++ ": " ++ format_f 1 (d_area_mm d) ++ "mm²")%string.

(** The three drawing calls of lines 96-102 for one defect. *)
Definition paint (a : ndarray) (d : defect) : result ndarray :=
  let '(x, y, w, h) := d_bbox d in
  let color := _get_defect_color (d_type d) in
  match drawContours a [d_contour d] (-1) color 2 with
  | Raise e => Raise e
  | Ok a1 =>
      match rectangle a1 (x, y) (x + w, y + h) color 2 with
      | Raise e => Raise e
      | Ok a2 =>
          putText a2 (label_of d) (x, y - 10) FONT_HERSHEY_SIMPLEX 0.5%float color 2
      end
  end.

Fixpoint paint_all (a : ndarray) (ds : list defect) : result ndarray :=
  match ds with
  | [] => Ok a
  | d :: ds' =>
      match paint a d with
      | Raise e => Raise e
      | Ok a' => paint_all a' ds'
      end
  end.

(** Lines 105-121: the statistics, as a function of the list of defects. *)
Definition summary (ds : list defect) : statistics :=
  {| total_defects := Z.of_nat (List.length ds);
     total_area_mm := py_sum (map d_area_mm ds);
     defect_types := count_types ds;
     pass := Z.of_nat (List.length ds) =? 0;
     fail := Z.of_nat (List.length ds) >? 0 |}.

(** [frames n m Q]: run on a heap that holds at least [n] arrays, [m] leaves
    the first [n] arrays as they were, frees nothing, and returns a value
    that satisfies [Q] unless it raises. *)
Definition frames {A} (n : nat) (m : M A) (Q : A -> Prop) : Prop :=
  forall h : heap,
    (n <= List.length h)%nat ->
    (List.length h <= List.length (fst (m h)))%nat /\
    (forall l, (l < n)%nat -> nth_error (fst (m h)) l = nth_error h l) /\
    match snd (m h) with
    | Ok a => Q a
    | Raise _ => True
    end.

End Views.

(** ** The detailed table of the report, row by row *)

Section Table.

Context {cv : CV2}.

Definition columns : row :=
  ["ID"; "Type"; "Area (mm²)"; "Area (pixels)";
   "X"; "Y"; "Width"; "Height"; "Aspect Ratio"; "Circularity"].

(** The row of the defect with identifier [i]. *)
Definition detail_row (i : Z) (d : defect) : row :=
  let '(x, y, w, h) := d_bbox d in
  [str_int i; d_type d;
   format_f 2 (d_area_mm d); format_f 2 (d_area_pixels d);
   str_int x; str_int y; str_int w; str_int h;
   format_f 2 (d_aspect_ratio d); format_f 2 (d_circularity d)].

(** The rows that come before the detailed table: header, summary and
    breakdown by type, each block closed by an empty row. *)
Definition rows_before_table (breakdown : PyDict.dict Z) : nat :=
  (4 + 5 + (1 + List.length breakdown + 1))%nat.

End Table.

(** The distinct strings of a list, in the order of their first occurrence. *)
Fixpoint unseen (seen : list string) (l : list string) : list string :=
  match l with
  | [] => []
  | x :: l' =>
      if existsb (String.eqb x) seen then unseen seen l'
      else x :: unseen (seen ++ [x]) l'
  end.

Definition first_seen (l : list string) : list string := unseen [] l.

(** The number of occurrences of a string in a list. *)
Definition occurrences (k : string) (l : list string) : Z :=
  Z.of_nat (count_occ string_dec l k).

Definition sum_Z (l : list Z) : Z := fold_right Z.add 0 l.

(** ** A synthetic OpenCV

    An instance of the interface for running the detector on hand-made
    regions: an image is the list of regions an edge detector would find in
    it, together with the shapes drawn on it so far. *)

Module Synthetic.

Record region : Type := {
  r_area : float;
  r_perimeter : float;
  r_bbox : Z * Z * Z * Z
}.

Inductive shape : Type :=
| Outline (r : region) (c : color)
| Box (p q : point) (c : color)
| Label (s : string) (p : point) (c : color).

Record canvas : Type := { regions : list region; drawn : list shape }.

Definition draw (s : shape) (a : canvas) : canvas :=
  {| regions := regions a; drawn := drawn a ++ [s] |}.

#[export] Instance cv : CV2 := {|
  ndarray := canvas;
  Contour := region;
  np_ones := fun _ => {| regions := []; drawn := [] |};
  cvtColor := fun a _ => Ok a;
  GaussianBlur := fun a _ _ => Ok a;
  Canny := fun a _ _ => Ok a;
  dilate := fun a _ _ => Ok a;
  findContours := fun a _ _ => Ok (regions a);
  contourArea := r_area;
  boundingRect := r_bbox;
  arcLength := fun r _ => r_perimeter r;
  drawContours := fun a cs _ c _ => Ok (fold_left (fun a r => draw (Outline r c) a) cs a);
  rectangle := fun a p q c _ => Ok (draw (Box p q c) a);
  putText := fun a s p _ _ c _ => Ok (draw (Label s p c) a)
|}.

(** A crack, a round hole, a speck below the size threshold, a second crack
    and a region exactly at the threshold. *)
Definition crack : region :=
  {| r_area := 400%float; r_perimeter := 220%float; r_bbox := (10, 20, 100, 10) |}.
Definition hole : region :=
  {| r_area := 314%float; r_perimeter := 63%float; r_bbox := (200, 50, 20, 20) |}.
Definition speck : region :=
  {| r_area := 12%float; r_perimeter := 14%float; r_bbox := (5, 5, 4, 4) |}.
Definition crack2 : region :=
  {| r_area := 90%float; r_perimeter := 120%float; r_bbox := (0, 300, 3, 60) |}.
Definition edge_case : region :=
  {| r_area := 50%float; r_perimeter := 40%float; r_bbox := (70, 70, 8, 8) |}.

Definition scene : canvas :=
  {| regions := [crack; hole; speck; crack2; edge_case]; drawn := [] |}.

(** The scene is the only array of the heap; the detector has its default
    settings. *)
Definition run : heap * result detection := detect_defects init 0%nat [scene].

Definition found : detection :=
  match snd run with
  | Ok r => r
  | Raise _ => {| defects := []; annotated_image := 0%nat; stats := summary [] |}
  end.

(** The report of the synthetic run. *)
Definition report : string * csv_file :=
  generate_report (fun fmt => fmt) (fun dir name => (dir ++ "/" ++ name)%string)
    (fun p => p) {| report_dir := "reports" |} "part.png" found (Some "out.csv").

End Synthetic.

(** * Properties *)

(** ** Order facts on binary64 numbers *)

Module FloatFacts.

Lemma SFcompare_antisym (x y : spec_float) :
  SFcompare y x = option_map CompOpp (SFcompare x y).
Proof.
  destruct x as [sx|sx| |sx mx ex], y as [sy|sy| |sy my ey]; simpl;
    try reflexivity;
    try (destruct sx; reflexivity); try (destruct sy; reflexivity);
    try (destruct sx, sy; reflexivity).
  destruct sx, sy; simpl; try reflexivity.
  - rewrite (Z.compare_antisym ex ey).
    destruct (ex ?= ey); simpl; try reflexivity.
    rewrite (Pos.compare_cont_antisym my mx Eq); simpl.
    rewrite ?CompOpp_involutive; reflexivity.
  - rewrite (Z.compare_antisym ex ey).
    destruct (ex ?= ey); simpl; try reflexivity.
    rewrite (Pos.compare_cont_antisym mx my Eq); simpl; reflexivity.
Qed.

Lemma SFcompare_refl (x : spec_float) :
  SFcompare x x = match x with S754_nan => None | _ => Some Eq end.
Proof.
  destruct x as [s|s| |s m e]; simpl; try reflexivity.
  - destruct s; reflexivity.
  - rewrite Z.compare_refl.
    assert (H : Pos.compare_cont Eq m m = Eq) by apply Pos.compare_refl.
    rewrite H. destruct s; reflexivity.
Qed.

Lemma SFcompare_None (x y : spec_float) :
  SFcompare x y = None -> x = S754_nan \/ y = S754_nan.
Proof.
  destruct x as [sx|sx| |sx mx ex], y as [sy|sy| |sy my ey]; simpl;
    intros H; try discriminate H; auto.
Qed.

(** A float is a NaN exactly when it differs from itself. *)
Lemma is_nan_spec (x : float) :
  is_nan x = match Prim2SF x with S754_nan => true | _ => false end.
Proof.
  unfold is_nan. rewrite eqb_spec. unfold SFeqb. rewrite SFcompare_refl.
  destruct (Prim2SF x); reflexivity.
Qed.

(** [x <= y] excludes [x > y]. *)
Lemma fle_not_fgt (x y : float) : fle x y = true -> fgt x y = false.
Proof.
  unfold fle, fgt. rewrite leb_spec, ltb_spec. unfold SFleb, SFltb.
  rewrite (SFcompare_antisym (Prim2SF x) (Prim2SF y)).
  destruct (SFcompare (Prim2SF x) (Prim2SF y)) as [[]|]; simpl; congruence.
Qed.

(** [x == y] excludes [x < y] and [x > y]. *)
Lemma feq_not_flt (x y : float) : feq x y = true -> flt x y = false.
Proof.
  unfold feq, flt. rewrite eqb_spec, ltb_spec. unfold SFeqb, SFltb.
  destruct (SFcompare (Prim2SF x) (Prim2SF y)) as [[]|]; simpl; congruence.
Qed.

Lemma feq_not_fgt (x y : float) : feq x y = true -> fgt x y = false.
Proof.
  unfold feq, fgt. rewrite eqb_spec, ltb_spec. unfold SFeqb, SFltb.
  rewrite (SFcompare_antisym (Prim2SF x) (Prim2SF y)).
  destruct (SFcompare (Prim2SF x) (Prim2SF y)) as [[]|]; simpl; congruence.
Qed.

(** On numbers (no NaN), "not [x < y]" is [x >= y]. *)
Lemma not_flt_fge (x y : float) :
  is_nan x = false -> is_nan y = false -> flt x y = false -> fge x y = true.
Proof.
  rewrite !is_nan_spec. unfold flt, fge. rewrite leb_spec, ltb_spec.
  unfold SFleb, SFltb. intros Hx Hy.
  rewrite (SFcompare_antisym (Prim2SF x) (Prim2SF y)).
  destruct (SFcompare (Prim2SF x) (Prim2SF y)) as [[]|] eqn:E; simpl;
    try congruence.
  apply SFcompare_None in E. destruct E as [E|E]; rewrite E in *; discriminate.
Qed.

(** [x >= y] excludes [x < y], NaN or not. *)
Lemma fge_not_flt (x y : float) : fge x y = true -> flt x y = false.
Proof. unfold fge, flt. intros H. apply (fle_not_fgt y x H). Qed.

(** With [.2f] a number is written with a point followed by exactly two
    characters. *)
Lemma two_digits (n : Z) :
  0 <= n < 100 -> String.length (pad_left 2 (str_int n)) = 2%nat.
Proof.
  intros Hn.
  assert (H : forallb
                (fun k => Nat.eqb (String.length (pad_left 2 (str_int (Z.of_nat k)))) 2)
                (seq 0 100) = true) by (vm_compute; reflexivity).
  rewrite forallb_forall in H.
  specialize (H (Z.to_nat n)). rewrite Z2Nat.id in H by lia.
  apply Nat.eqb_eq, H, in_seq. lia.
Qed.

Lemma format_f_two_decimals (x : float) :
  is_nan x = false -> is_infinity x = false ->
  exists whole frac : string,
    format_f 2 x = (whole ++ "." ++ frac)%string /\ String.length frac = 2%nat.
Proof.
  intros Hnan Hinf. unfold format_f, Prim2SF. rewrite Hnan, Hinf.
  assert (Hshape : forall (sign : string) (q : Z),
            exists whole frac : string,
              (sign ++ fixed_digits 2 q)%string = (whole ++ "." ++ frac)%string /\
              String.length frac = 2%nat).
  { intros sign q. unfold fixed_digits.
    exists (sign ++ str_int (q / 10 ^ Z.of_nat 2))%string,
           (pad_left 2 (str_int (q mod 10 ^ Z.of_nat 2))).
    split.
    - clear. induction sign as [|c sign IH]; simpl in *; [reflexivity|].
      f_equal. exact IH.
    - apply two_digits. change (10 ^ Z.of_nat 2) with 100.
      apply Z.mod_pos_bound. lia. }
  destruct (is_zero x); [apply Hshape|].
  destruct (Z.frexp x) as [r ex].
  destruct (shr_fexp prec emax (Uint63.to_Z (normfr_mantissa r)) (ex - prec) loc_Exact)
    as [sh e'].
  destruct (shr_m sh); apply Hshape.
Qed.

End FloatFacts.

(** ** The classifier *)

Section Classifier.

Import FloatFacts.

(** The classifier is the first-match evaluation of the five tests. *)
Lemma _classify_defect_rules (area_mm aspect_ratio circularity : float) :
  _classify_defect area_mm aspect_ratio circularity =
  if rule1 aspect_ratio then "Crack"
  else if rule2 circularity then "Hole"
  else if rule3 circularity then "Irregular Shape"
  else if rule4 area_mm then "Misalignment"
  else if rule5 area_mm then "Large Defect"
  else "Small Defect".
Proof. reflexivity. Qed.

(** C1. The six rules are tried in the order Crack, Hole, Irregular Shape,
    Misalignment, Large Defect, Small Defect, and the first rule that matches
    decides: each rule gives its category exactly when all earlier rules have
    failed. In particular a region that satisfies both rule 1 and rule 2 is a
    Crack and not a Hole, as is every region with aspect ratio 5.0 and
    circularity 0.9, whatever its area. *)
Theorem classify_first_match_wins (area_mm aspect_ratio circularity : float) :
  let category := _classify_defect area_mm aspect_ratio circularity in
  (rule1 aspect_ratio = true -> category = "Crack") /\
  (rule1 aspect_ratio = false -> rule2 circularity = true -> category = "Hole") /\
  (rule1 aspect_ratio = false -> rule2 circularity = false ->
   rule3 circularity = true -> category = "Irregular Shape") /\
  (rule1 aspect_ratio = false -> rule2 circularity = false ->
   rule3 circularity = false -> rule4 area_mm = true ->
   category = "Misalignment") /\
  (rule1 aspect_ratio = false -> rule2 circularity = false ->
   rule3 circularity = false -> rule4 area_mm = false ->
   rule5 area_mm = true -> category = "Large Defect") /\
  (rule1 aspect_ratio = false -> rule2 circularity = false ->
   rule3 circularity = false -> rule4 area_mm = false ->
   rule5 area_mm = false -> category = "Small Defect") /\
  (rule1 aspect_ratio = true -> rule2 circularity = true ->
   category = "Crack" /\ category <> "Hole") /\
  (_classify_defect area_mm 5.0%float 0.9%float = "Crack" /\
   rule1 5.0%float = true /\ rule2 0.9%float = true).
Proof.
  intros category. subst category. rewrite _classify_defect_rules.
  repeat split; intros;
    repeat match goal with H : _ = _ |- _ => rewrite H; clear H end;
    try reflexivity.
  discriminate.
Qed.

(** The rule order on a concrete elongated, circular region. *)
Lemma classify_first_match_wins_witness :
  rule1 5.0%float = true /\ rule2 0.9%float = true /\
  _classify_defect 30%float 5.0%float 0.9%float = "Crack" /\
  _classify_defect 30%float 5.0%float 0.9%float <> "Hole".
Proof.
  split; [reflexivity | split; [reflexivity | ]].
  apply (classify_first_match_wins 30%float 5.0%float 0.9%float);
    reflexivity.
Defined.

(** A region that fails rules 1 to 3 is classified by its area alone. *)
Lemma classify_by_area (area_mm aspect_ratio circularity : float) :
  rule1 aspect_ratio = false -> rule2 circularity = false ->
  rule3 circularity = false ->
  _classify_defect area_mm aspect_ratio circularity =
  if rule4 area_mm then "Misalignment"
  else if rule5 area_mm then "Large Defect" else "Small Defect".
Proof.
  intros H1 H2 H3. rewrite _classify_defect_rules, H1, H2, H3. reflexivity.
Qed.

(** The bounds of the claim are the failure of rules 1 to 3. *)
Lemma bounds_fail_rules (aspect_ratio circularity : float) :
  fle 0.33%float aspect_ratio = true -> fle aspect_ratio 3.0%float = true ->
  fle 0.3%float circularity = true -> fle circularity 0.7%float = true ->
  rule1 aspect_ratio = false /\ rule2 circularity = false /\
  rule3 circularity = false.
Proof.
  intros Ha1 Ha2 Hc1 Hc2. unfold rule1, rule2, rule3.
  rewrite (fle_not_fgt _ _ Ha2), (fle_not_fgt _ _ Hc2).
  apply fle_not_fgt in Ha1, Hc1. unfold fgt in Ha1, Hc1. unfold flt.
  rewrite Ha1, Hc1. auto.
Qed.

(** C10. For a region with 0.33 <= aspect_ratio <= 3.0 and
    0.3 <= circularity <= 0.7 (so rules 1 to 3 fail), an area of exactly
    50 mm2 and an area of exactly 10 mm2 are both Small Defect: the two
    bounds of rule 4 and the bound of rule 5 are strict. *)
Theorem boundary_areas_are_small (aspect_ratio circularity : float) :
  fle 0.33%float aspect_ratio = true -> fle aspect_ratio 3.0%float = true ->
  fle 0.3%float circularity = true -> fle circularity 0.7%float = true ->
  _classify_defect 50%float aspect_ratio circularity = "Small Defect" /\
  _classify_defect 10%float aspect_ratio circularity = "Small Defect" /\
  rule4 50%float = false /\ rule5 50%float = false /\
  rule4 10%float = false /\ rule5 10%float = false.
Proof.
  intros Ha1 Ha2 Hc1 Hc2.
  destruct (bounds_fail_rules _ _ Ha1 Ha2 Hc1 Hc2) as (H1 & H2 & H3).
  rewrite !(classify_by_area _ _ _ H1 H2 H3).
  repeat split; reflexivity.
Qed.

(** A square region of medium circularity at both boundary areas. *)
Lemma boundary_areas_are_small_witness :
  _classify_defect 50%float 1.0%float 0.5%float = "Small Defect" /\
  _classify_defect 10%float 1.0%float 0.5%float = "Small Defect".
Proof.
  pose proof (boundary_areas_are_small 1.0%float 0.5%float
                eq_refl eq_refl eq_refl eq_refl) as H.
  split; apply H.
Defined.

End Classifier.

(** ** The heap *)

Section HeapFacts.

Context {cv : CV2}.

Lemma length_update (h : heap) (r : ref) (a : ndarray) :
  List.length (update h r a) = List.length h.
Proof.
  revert r; induction h as [|b h IH]; intros [|r]; simpl; auto.
Qed.

Lemma nth_error_update_eq (h : heap) (r : ref) (a : ndarray) :
  (r < List.length h)%nat -> nth_error (update h r a) r = Some a.
Proof.
  revert r; induction h as [|b h IH]; intros [|r]; simpl; intros H;
    try lia; auto.
  apply IH. lia.
Qed.

Lemma nth_error_update_ne (h : heap) (r l : ref) (a : ndarray) :
  l <> r -> nth_error (update h r a) l = nth_error h l.
Proof.
  revert r l; induction h as [|b h IH]; intros [|r] [|l]; simpl; intros H;
    try congruence; auto.
Qed.

Lemma update_update (h : heap) (r : ref) (a b : ndarray) :
  update (update h r a) r b = update h r b.
Proof.
  revert r; induction h as [|c h IH]; intros [|r]; simpl; auto.
  f_equal. apply IH.
Qed.

Lemma update_same (h : heap) (r : ref) (a : ndarray) :
  nth_error h r = Some a -> update h r a = h.
Proof.
  revert r; induction h as [|c h IH]; intros [|r]; simpl; intros H;
    try congruence.
  f_equal. apply IH, H.
Qed.

Lemma nth_error_Some_lt (h : heap) (r : ref) (a : ndarray) :
  nth_error h r = Some a -> (r < List.length h)%nat.
Proof. intros H. apply nth_error_Some. congruence. Qed.

End HeapFacts.

(** ** Calls that return *)

Section Returns.

Context {cv : CV2}.

Lemma bind_Ok {A B} (m : M A) (k : A -> M B) (h h' : heap) (b : B) :
  bind m k h = (h', Ok b) ->
  exists a h1, m h = (h1, Ok a) /\ k a h1 = (h', Ok b).
Proof.
  unfold bind. destruct (m h) as [h1 [a|e]]; intros H.
  - exists a, h1. auto.
  - discriminate H.
Qed.

Lemma lift_Ok {A} (r : result A) (h h' : heap) (a : A) :
  lift r h = (h', Ok a) -> r = Ok a /\ h' = h.
Proof. unfold lift. intros H. inversion H. auto. Qed.

Lemma load_Ok (r : ref) (h h' : heap) (a : ndarray) :
  load r h = (h', Ok a) -> nth_error h r = Some a /\ h' = h.
Proof.
  unfold load. destruct (nth_error h r); intros H; inversion H. auto.
Qed.

Lemma cv_draw_Ok (f : ndarray -> result ndarray) (r : ref) (h h' : heap) (u : unit) :
  cv_draw f r h = (h', Ok u) ->
  exists a b, nth_error h r = Some a /\ f a = Ok b /\ h' = update h r b.
Proof.
  unfold cv_draw. intros H.
  apply bind_Ok in H. destruct H as (a & h1 & Hl & H).
  apply load_Ok in Hl. destruct Hl as [Hl ->].
  apply bind_Ok in H. destruct H as (b & h2 & Hf & H).
  apply lift_Ok in Hf. destruct Hf as [Hf ->].
  unfold store in H. inversion H. eauto.
Qed.

Lemma cv_new_Ok (f : ndarray -> result ndarray) (src : ref) (h h' : heap) (r : ref) :
  cv_new f src h = (h', Ok r) ->
  exists a b, nth_error h src = Some a /\ f a = Ok b /\
              h' = h ++ [b] /\ r = List.length h.
Proof.
  unfold cv_new. intros H.
  apply bind_Ok in H. destruct H as (a & h1 & Hl & H).
  apply load_Ok in Hl. destruct Hl as [Hl ->].
  apply bind_Ok in H. destruct H as (b & h2 & Hf & H).
  apply lift_Ok in Hf. destruct Hf as [Hf ->].
  unfold alloc in H. inversion H. eauto 6.
Qed.

Lemma np_copy_Ok (image : ref) (h h' : heap) (r : ref) :
  np_copy image h = (h', Ok r) ->
  exists a, nth_error h image = Some a /\ h' = h ++ [a] /\ r = List.length h.
Proof.
  unfold np_copy. intros H.
  apply bind_Ok in H. destruct H as (a & h1 & Hl & H).
  apply load_Ok in Hl. destruct Hl as [Hl ->].
  unfold alloc in H. inversion H. eauto.
Qed.

(** One iteration of the loop that returns: the region was skipped and
    nothing changed, or it was described, appended, and painted on the
    annotated image. *)
Lemma visit_contour_Ok (self : DefectDetector) (ann : ref)
    (ds ds' : list defect) (c : Contour) (h h' : heap) :
  visit_contour self ann ds c h = (h', Ok ds') ->
  (keeps self c = false /\ ds' = ds /\ h' = h) \/
  (keeps self c = true /\
   exists d a a', describes c d /\ ds' = ds ++ [d] /\
                  nth_error h ann = Some a /\ paint a d = Ok a' /\
                  h' = update h ann a').
Proof.
  unfold visit_contour, keeps.
  destruct (flt (contourArea c * 0.1) (min_defect_size self)); simpl.
  - intros H. inversion H. left. auto.
  - destruct (boundingRect c) as [[[x y] w] hh] eqn:Hbox.
    intros H. right. split; [reflexivity|].
    apply bind_Ok in H. destruct H as (ar & h1 & Har & H).
    apply lift_Ok in Har. destruct Har as [Har ->].
    apply bind_Ok in H. destruct H as (ci & h1 & Hci & H).
    apply lift_Ok in Hci. destruct Hci as [Hci ->].
    apply bind_Ok in H. destruct H as (u1 & h1 & H1 & H).
    apply cv_draw_Ok in H1. destruct H1 as (a & a1 & Ha & Hd1 & ->).
    apply bind_Ok in H. destruct H as (u2 & h2 & H2 & H).
    apply cv_draw_Ok in H2. destruct H2 as (a1' & a2 & Ha1 & Hd2 & ->).
    apply bind_Ok in H. destruct H as (u3 & h3 & H3 & H).
    apply cv_draw_Ok in H3. destruct H3 as (a2' & a3 & Ha2 & Hd3 & ->).
    unfold ret in H. inversion H; subst h' ds'; clear H.
    pose proof (nth_error_Some_lt _ _ _ Ha) as Hlt.
    rewrite nth_error_update_eq in Ha1 by exact Hlt.
    rewrite nth_error_update_eq in Ha2 by (rewrite length_update; exact Hlt).
    inversion Ha1; subst a1'. inversion Ha2; subst a2'.
    rewrite !update_update.
    eexists _, a, a3. split; [|split; [reflexivity|split; [exact Ha|split; [|reflexivity]]]].
    + unfold describes; simpl. rewrite Hbox. repeat split; assumption.
    + unfold paint, label_of; simpl. rewrite Hd1, Hd2. exact Hd3.
Qed.

(** The whole loop, when it returns: the new defects describe the kept
    regions, in order, and have been painted one after the other. *)
Lemma for_each_visit_Ok (self : DefectDetector) (ann : ref) (cs : list Contour) :
  forall (ds ds' : list defect) (h h' : heap) (a : ndarray),
  for_each (visit_contour self ann) cs ds h = (h', Ok ds') ->
  nth_error h ann = Some a ->
  exists new a',
    ds' = ds ++ new /\
    Forall2 describes (filter (keeps self) cs) new /\
    paint_all a new = Ok a' /\
    h' = update h ann a'.
Proof.
  induction cs as [|c cs IH]; simpl; intros ds ds' h h' a H Ha.
  - unfold ret in H. inversion H; subst.
    exists [], a. rewrite app_nil_r, (update_same _ _ _ Ha).
    repeat split; constructor.
  - apply bind_Ok in H. destruct H as (ds1 & h1 & Hv & H).
    apply visit_contour_Ok in Hv.
    destruct Hv as [(Hk & -> & ->) | (Hk & d & a0 & a1 & Hd & -> & Ha0 & Hp & ->)];
      rewrite Hk.
    + apply (IH _ _ _ _ _ H Ha).
    + rewrite Ha in Ha0. inversion Ha0; subst a0.
      pose proof (nth_error_Some_lt _ _ _ Ha) as Hlt.
      destruct (IH _ _ _ _ a1 H (nth_error_update_eq _ _ _ Hlt))
        as (new & a' & -> & HF & Hpa & ->).
      exists (d :: new), a'. rewrite <- app_assoc, update_update. simpl.
      rewrite Hp. repeat split; auto.
Qed.

End Returns.

(** ** What a call leaves untouched *)

Section Frame.

Context {cv : CV2}.

Lemma frames_ret {A} (n : nat) (a : A) (Q : A -> Prop) :
  Q a -> frames n (ret a) Q.
Proof. intros HQ h Hn. simpl. auto. Qed.

Lemma frames_lift {A} (n : nat) (r : result A) :
  frames n (lift r) (fun _ => True).
Proof. intros h Hn. simpl. destruct r; auto. Qed.

Lemma frames_load (n : nat) (r : ref) :
  frames n (load r) (fun _ => True).
Proof.
  intros h Hn. unfold load. destruct (nth_error h r); simpl; auto.
Qed.

Lemma frames_alloc (n : nat) (a : ndarray) :
  frames n (alloc a) (fun r => (n <= r)%nat).
Proof.
  intros h Hn. unfold alloc. simpl. rewrite length_app. simpl.
  repeat split; try lia.
  intros l Hl. apply nth_error_app1. lia.
Qed.

Lemma frames_store (n : nat) (r : ref) (a : ndarray) :
  (n <= r)%nat -> frames n (store r a) (fun _ => True).
Proof.
  intros Hr h Hn. unfold store. simpl. rewrite length_update.
  repeat split; auto.
  intros l Hl. apply nth_error_update_ne. lia.
Qed.

Lemma frames_bind {A B} (n : nat) (m : M A) (k : A -> M B)
    (Q : A -> Prop) (R : B -> Prop) :
  frames n m Q -> (forall a, Q a -> frames n (k a) R) ->
  frames n (bind m k) R.
Proof.
  intros Hm Hk h Hn. destruct (Hm h Hn) as (Hlen & Hfr & HQ).
  unfold bind. destruct (m h) as [h1 [a|e]]; simpl in *.
  - destruct (Hk a HQ h1 ltac:(lia)) as (Hlen' & Hfr' & HR).
    repeat split; try lia; auto.
    intros l Hl. rewrite Hfr' by exact Hl. apply Hfr, Hl.
  - auto.
Qed.

Lemma frames_weaken {A} (n : nat) (m : M A) (Q Q' : A -> Prop) :
  frames n m Q -> (forall a, Q a -> Q' a) -> frames n m Q'.
Proof.
  intros Hm HQ h Hn. destruct (Hm h Hn) as (Hlen & Hfr & Hq).
  repeat split; auto. destruct (snd (m h)); auto.
Qed.

Lemma frames_for_each {A S} (n : nat) (body : S -> A -> M S) (xs : list A) :
  (forall s x, frames n (body s x) (fun _ => True)) ->
  forall s, frames n (for_each body xs s) (fun _ => True).
Proof.
  intros Hb. induction xs as [|x xs IH]; intros s; simpl.
  - apply frames_ret. exact I.
  - eapply frames_bind; [apply Hb | intros; apply IH].
Qed.

Lemma frames_cv_new (n : nat) (f : ndarray -> result ndarray) (src : ref) :
  frames n (cv_new f src) (fun r => (n <= r)%nat).
Proof.
  unfold cv_new.
  eapply frames_bind; [apply frames_load | intros a _].
  eapply frames_bind; [apply frames_lift | intros b _].
  apply frames_alloc.
Qed.

Lemma frames_cv_draw (n : nat) (f : ndarray -> result ndarray) (img : ref) :
  (n <= img)%nat -> frames n (cv_draw f img) (fun _ => True).
Proof.
  intros Hi. unfold cv_draw.
  eapply frames_bind; [apply frames_load | intros a _].
  eapply frames_bind; [apply frames_lift | intros b _].
  apply frames_store, Hi.
Qed.

Lemma frames_np_copy (n : nat) (image : ref) :
  frames n (np_copy image) (fun r => (n <= r)%nat).
Proof.
  unfold np_copy.
  eapply frames_bind; [apply frames_load | intros a _].
  apply frames_alloc.
Qed.

(** The extraction pipeline only creates arrays. *)
Lemma frames_find_contours (n : nat) (self : DefectDetector) (image : ref) :
  frames n (find_contours self image) (fun _ => True).
Proof.
  unfold find_contours.
  eapply frames_bind; [apply frames_cv_new | intros gray _].
  eapply frames_bind; [apply frames_cv_new | intros blurred _].
  eapply frames_bind; [apply frames_cv_new | intros edges _].
  eapply frames_bind; [apply frames_alloc | intros kernel _].
  eapply frames_bind; [apply frames_load | intros k _].
  eapply frames_bind; [apply frames_cv_new | intros dilated _].
  eapply frames_bind; [apply frames_load | intros a _].
  apply frames_lift.
Qed.

(** One iteration of the loop writes to the annotated image only. *)
Lemma frames_visit_contour (n : nat) (self : DefectDetector) (ann : ref)
    (ds : list defect) (c : Contour) :
  (n <= ann)%nat -> frames n (visit_contour self ann ds c) (fun _ => True).
Proof.
  intros Hann. unfold visit_contour.
  destruct (flt (contourArea c * 0.1) (min_defect_size self)).
  - apply frames_ret. exact I.
  - destruct (boundingRect c) as [[[x y] w] hh].
    eapply frames_bind; [apply frames_lift | intros ar _].
    eapply frames_bind; [apply frames_lift | intros ci _].
    eapply frames_bind; [apply frames_cv_draw, Hann | intros _ _].
    eapply frames_bind; [apply frames_cv_draw, Hann | intros _ _].
    eapply frames_bind; [apply frames_cv_draw, Hann | intros _ _].
    apply frames_ret. exact I.
Qed.

(** The detector leaves every array that existed before the call as it was;
    the annotated image it returns is a new one. *)
Lemma frames_detect_defects (n : nat) (self : DefectDetector) (image : ref) :
  frames n (detect_defects self image) (fun r => (n <= annotated_image r)%nat).
Proof.
  unfold detect_defects.
  eapply frames_bind; [apply frames_find_contours | intros contours _].
  eapply frames_bind; [apply frames_np_copy | intros ann Hann].
  eapply frames_bind;
    [apply frames_for_each; intros; apply frames_visit_contour, Hann
    | intros ds _].
  apply frames_ret. simpl. exact Hann.
Qed.

End Frame.

(** ** The detector *)

Section DetectorFacts.

Context {cv : CV2}.

Import FloatFacts.

(** The pipeline reads the input image first: it returns only when the
    reference holds an array. *)
Lemma find_contours_Ok_loaded (self : DefectDetector) (image : ref)
    (h h1 : heap) (contours : list Contour) :
  find_contours self image h = (h1, Ok contours) ->
  exists a, nth_error h image = Some a.
Proof.
  unfold find_contours. intros H.
  apply bind_Ok in H. destruct H as (gray & h0 & Hg & _).
  apply cv_new_Ok in Hg. destruct Hg as (a & b & Ha & _). eauto.
Qed.

(** A dangling reference is rejected before anything is allocated. *)
Lemma detect_defects_dangling (self : DefectDetector) (image : ref) (h : heap) :
  nth_error h image = None ->
  detect_defects self image h = (h, Raise CvError).
Proof.
  intros H. unfold detect_defects, find_contours, cv_new, bind, load.
  rewrite H. reflexivity.
Qed.

(** A call that returns, step by step. *)
Lemma detect_defects_Ok (self : DefectDetector) (image : ref)
    (h h' : heap) (r : detection) :
  detect_defects self image h = (h', Ok r) ->
  exists contours h1 original final,
    find_contours self image h = (h1, Ok contours) /\
    nth_error h image = Some original /\
    annotated_image r = List.length h1 /\
    (List.length h <= List.length h1)%nat /\
    Forall2 describes (filter (keeps self) contours) (defects r) /\
    paint_all original (defects r) = Ok final /\
    h' = update (h1 ++ [original]) (List.length h1) final /\
    stats r = summary (defects r).
Proof.
  unfold detect_defects. intros H.
  apply bind_Ok in H. destruct H as (contours & h1 & Hf & H).
  apply bind_Ok in H. destruct H as (ann & h2 & Hc & H).
  apply bind_Ok in H. destruct H as (ds & h3 & Hl & H).
  unfold ret in H. inversion H; subst h3 r; clear H. simpl.
  apply np_copy_Ok in Hc. destruct Hc as (a & Ha & -> & ->).
  destruct (find_contours_Ok_loaded _ _ _ _ _ Hf) as (a0 & Ha0).
  pose proof (nth_error_Some_lt _ _ _ Ha0) as Hlt.
  destruct (frames_find_contours (List.length h) self image h (le_n _))
    as (Hlen & Hfr & _).
  rewrite Hf in Hlen, Hfr. simpl in Hlen, Hfr.
  rewrite (Hfr _ Hlt), Ha0 in Ha. inversion Ha; subst a0.
  assert (Hann : nth_error (h1 ++ [a]) (List.length h1) = Some a).
  { rewrite nth_error_app2 by lia. rewrite Nat.sub_diag. reflexivity. }
  destruct (for_each_visit_Ok _ _ _ _ _ _ _ _ Hl Hann)
    as (new & a' & -> & HF & Hp & ->).
  simpl. exists contours, h1, a, a'. repeat split; auto.
Qed.

(** C8. The detector never writes to its input image: after the call,
    whether it returned or raised, the input image (and every other array
    that existed before) holds the pixels it held before. When the call
    returns, [annotated_image] is an array that did not exist before, hence
    not the input image, and it holds a copy of the input on which the
    outline, the box and the label of each defect have been drawn in turn. *)
Theorem detect_defects_keeps_input (self : DefectDetector) (image : ref) (h : heap) :
  let outcome := detect_defects self image h in
  nth_error (fst outcome) image = nth_error h image /\
  (forall l, (l < List.length h)%nat ->
             nth_error (fst outcome) l = nth_error h l) /\
  match snd outcome with
  | Raise _ => True
  | Ok r =>
      annotated_image r <> image /\
      nth_error h (annotated_image r) = None /\
      exists original final,
        nth_error h image = Some original /\
        paint_all original (defects r) = Ok final /\
        nth_error (fst outcome) (annotated_image r) = Some final
  end.
Proof.
  intros outcome. subst outcome.
  destruct (frames_detect_defects (List.length h) self image h (le_n _))
    as (Hlen & Hfr & Hann).
  split; [|split; [exact Hfr|]].
  - destruct (nth_error h image) as [a|] eqn:Ha.
    + rewrite <- Ha. apply Hfr. apply (nth_error_Some_lt _ _ _ Ha).
    + rewrite (detect_defects_dangling _ _ _ Ha). exact Ha.
  - destruct (detect_defects self image h) as [h' [r|e]] eqn:Hrun; simpl in *;
      [|exact I].
    destruct (detect_defects_Ok _ _ _ _ _ Hrun)
      as (contours & h1 & original & final & _ & Himg & Hr & Hh1 & _ & Hp & -> & _).
    pose proof (nth_error_Some_lt _ _ _ Himg) as Hlt.
    split; [lia|]. split; [apply nth_error_None; lia|].
    exists original, final. repeat split; auto.
    rewrite Hr. apply nth_error_update_eq. rewrite length_app. simpl. lia.
Qed.

Lemma Forall2_describes (cs : list Contour) (ds : list defect) :
  Forall2 describes cs ds ->
  map d_contour ds = cs /\ Forall (fun d => describes (d_contour d) d) ds.
Proof.
  induction 1 as [|c d cs ds Hd _ [IH1 IH2]]; simpl.
  - split; constructor.
  - pose proof Hd as Hd'. destruct Hd' as (Hc & _). split.
    + rewrite Hc, IH1. reflexivity.
    + constructor; [rewrite Hc; exact Hd | exact IH2].
Qed.

(** C2. Every defect returned by the detector has an area in mm2 that is
    its pixel area times 0.1 and is not below [min_defect_size]: on numbers
    (neither is a NaN) that is [area_mm >= min_defect_size]. The defects are
    the regions that pass the strict test, in the order of discovery: a
    region whose area equals the threshold is kept, a region below it is
    not among the defects, is not counted in [total_defects], and is not
    drawn: the annotated image is the input with the returned defects
    painted on it, one after the other. *)
Theorem defects_meet_min_size (self : DefectDetector) (image : ref)
    (h h' : heap) (r : detection) :
  detect_defects self image h = (h', Ok r) ->
  (forall d, In d (defects r) ->
     d_area_mm d = (d_area_pixels d * 0.1)%float /\
     flt (d_area_mm d) (min_defect_size self) = false /\
     (is_nan (d_area_mm d) = false -> is_nan (min_defect_size self) = false ->
      fge (d_area_mm d) (min_defect_size self) = true)) /\
  exists h1 contours original final,
    find_contours self image h = (h1, Ok contours) /\
    map d_contour (defects r) = filter (keeps self) contours /\
    (forall c, In c contours ->
       feq (contourArea c * 0.1)%float (min_defect_size self) = true ->
       In c (map d_contour (defects r))) /\
    (forall c, flt (contourArea c * 0.1)%float (min_defect_size self) = true ->
       ~ In c (map d_contour (defects r))) /\
    total_defects (stats r) = Z.of_nat (List.length (filter (keeps self) contours)) /\
    nth_error h image = Some original /\
    paint_all original (defects r) = Ok final /\
    nth_error h' (annotated_image r) = Some final.
Proof.
  intros Hrun.
  destruct (detect_defects_Ok _ _ _ _ _ Hrun)
    as (contours & h1 & original & final & Hf & Himg & Hr & Hh1 & HF & Hp & -> & Hs).
  destruct (Forall2_describes _ _ HF) as [Hmap Hall].
  assert (Hkept : forall c, In c (map d_contour (defects r)) -> keeps self c = true).
  { intros c Hc. rewrite Hmap in Hc. apply filter_In in Hc. apply Hc. }
  split.
  - intros d Hd.
    pose proof (proj1 (Forall_forall _ _) Hall d Hd) as (_ & Hpx & Hmm & _).
    assert (Hk : keeps self (d_contour d) = true)
      by (apply Hkept, in_map, Hd).
    unfold keeps in Hk. apply negb_true_iff in Hk. rewrite <- Hmm in Hk.
    split; [rewrite Hmm, Hpx; reflexivity|]. split; [exact Hk|].
    intros Hn1 Hn2. apply not_flt_fge; assumption.
  - exists h1, contours, original, final.
    split; [exact Hf|]. split; [exact Hmap|]. split; [|split; [|split]].
    + intros c Hc Heq. rewrite Hmap. apply filter_In. split; [exact Hc|].
      unfold keeps. rewrite (feq_not_flt _ _ Heq). reflexivity.
    + intros c Hlt Hc. apply Hkept in Hc. unfold keeps in Hc.
      rewrite Hlt in Hc. discriminate Hc.
    + rewrite Hs. simpl. rewrite <- Hmap, length_map. reflexivity.
    + split; [exact Himg|]. split; [exact Hp|].
      rewrite Hr. apply nth_error_update_eq. rewrite length_app. simpl. lia.
Qed.

(** C4. In every result, [pass] is [total_defects == 0] and [fail] is
    [total_defects > 0], where [total_defects] is the length of [defects];
    so [pass] and [fail] are complementary. *)
Theorem pass_fail_complementary (self : DefectDetector) (image : ref)
    (h h' : heap) (r : detection) :
  detect_defects self image h = (h', Ok r) ->
  pass (stats r) = (total_defects (stats r) =? 0) /\
  fail (stats r) = (total_defects (stats r) >? 0) /\
  total_defects (stats r) = Z.of_nat (List.length (defects r)) /\
  pass (stats r) = negb (fail (stats r)).
Proof.
  intros Hrun.
  destruct (detect_defects_Ok _ _ _ _ _ Hrun)
    as (_ & _ & _ & _ & _ & _ & _ & _ & _ & _ & _ & Hs).
  rewrite Hs. simpl. repeat split.
  destruct (List.length (defects r)); reflexivity.
Qed.

(** C5. In every result, [total_area_mm] is the sum of [area_mm] over the
    returned [defects], added up from the left starting at 0. *)
Theorem total_area_is_sum (self : DefectDetector) (image : ref)
    (h h' : heap) (r : detection) :
  detect_defects self image h = (h', Ok r) ->
  total_area_mm (stats r) = py_sum (map d_area_mm (defects r)) /\
  total_area_mm (stats r)
    = fold_left (fun acc d => (acc + d_area_mm d)%float) (defects r) 0%float.
Proof.
  intros Hrun.
  destruct (detect_defects_Ok _ _ _ _ _ Hrun)
    as (_ & _ & _ & _ & _ & _ & _ & _ & _ & _ & _ & Hs).
  rewrite Hs. simpl. split; [reflexivity|].
  unfold py_sum. clear Hs Hrun. generalize 0%float as acc.
  induction (defects r) as [|d ds IH]; intros acc; simpl.
  - reflexivity.
  - apply IH.
Qed.

(** C7. Degenerate geometry never raises: a bounding box of height 0 gives
    aspect ratio 0 and a perimeter equal to 0 gives circularity 0. Otherwise
    the aspect ratio is [float(w) / h] (for [h > 0]) and the circularity is
    the quotient [4 * pi * area_pixels / (perimeter * perimeter)] (for
    [perimeter > 0]), a float whenever the squared perimeter is not zero.
    The two fields of every returned defect are these values for the
    bounding box, area and perimeter of its boundary. *)
Theorem degenerate_geometry_absorbed :
  (forall w : Z, aspect_ratio_of w 0 = Ok 0%float) /\
  (forall w ht : Z, ht > 0 ->
     aspect_ratio_of w ht = Ok (float_of_int w / float_of_int ht)%float) /\
  (forall area_px p : float, feq p 0%float = true ->
     circularity_of area_px p = Ok 0%float) /\
  (forall area_px p : float, fgt p 0%float = true ->
     circularity_of area_px p = truediv (4 * np_pi * area_px)%float (p * p)%float) /\
  (forall area_px p : float, fgt p 0%float = true ->
     feq (p * p)%float 0%float = false ->
     circularity_of area_px p = Ok (4 * np_pi * area_px / (p * p))%float) /\
  (forall (self : DefectDetector) (image : ref) (h h' : heap) (r : detection)
          (d : defect),
     detect_defects self image h = (h', Ok r) -> In d (defects r) ->
     let '(_, _, w, ht) := boundingRect (d_contour d) in
     d_bbox d = boundingRect (d_contour d) /\
     aspect_ratio_of w ht = Ok (d_aspect_ratio d) /\
     circularity_of (contourArea (d_contour d)) (arcLength (d_contour d) true)
       = Ok (d_circularity d)).
Proof.
  split; [reflexivity|].
  split.
  { intros w ht Hht. unfold aspect_ratio_of, truediv_int.
    destruct (ht >? 0) eqn:E; [|lia].
    destruct (ht =? 0) eqn:E0; [lia|reflexivity]. }
  split.
  { intros a p Hp. unfold circularity_of.
    rewrite (feq_not_fgt _ _ Hp). reflexivity. }
  split.
  { intros a p Hp. unfold circularity_of. rewrite Hp. reflexivity. }
  split.
  { intros a p Hp Hpp. unfold circularity_of, truediv.
    rewrite Hp, Hpp. reflexivity. }
  intros self image h h' r d Hrun Hd.
  destruct (detect_defects_Ok _ _ _ _ _ Hrun)
    as (contours & h1 & original & final & _ & _ & _ & _ & HF & _).
  destruct (Forall2_describes _ _ HF) as [_ Hall].
  pose proof (proj1 (Forall_forall _ _) Hall d Hd) as (_ & _ & _ & Hb & Ha & Hc & _).
  destruct (boundingRect (d_contour d)) as [[[x y] w] ht].
  auto.
Qed.

End DetectorFacts.

(** ** Dicts and first-seen order *)

Module DictFacts.

Import PyDict.

Lemma existsb_eqb_In (k : string) (l : list string) :
  existsb (String.eqb k) l = true <-> In k l.
Proof.
  rewrite existsb_exists. split.
  - intros (x & Hx & E). apply String.eqb_eq in E. subst. exact Hx.
  - intros H. exists k. split; [exact H | apply String.eqb_refl].
Qed.

Lemma keys_set {V} (d : dict V) (k : string) (v : V) :
  keys (set d k v) =
  if existsb (String.eqb k) (keys d) then keys d else keys d ++ [k].
Proof.
  unfold keys. induction d as [|[k' v'] d IH]; simpl; [reflexivity|].
  rewrite (String.eqb_sym k k').
  destruct (String.eqb k' k) eqn:E; simpl; [reflexivity|].
  rewrite IH.
  destruct (existsb (String.eqb k) (map fst d)); reflexivity.
Qed.

Lemma get_set_same {V} (d : dict V) (k : string) (v default : V) :
  get (set d k v) k default = v.
Proof.
  induction d as [|[k' v'] d IH]; simpl.
  - rewrite String.eqb_refl. reflexivity.
  - destruct (String.eqb k' k) eqn:E; simpl; rewrite E; auto.
Qed.

Lemma get_set_other {V} (d : dict V) (k k' : string) (v default : V) :
  k' <> k -> get (set d k v) k' default = get d k' default.
Proof.
  intros Hne. induction d as [|[k0 v0] d IH]; simpl.
  - destruct (String.eqb k k') eqn:E; [|reflexivity].
    apply String.eqb_eq in E. congruence.
  - destruct (String.eqb k0 k) eqn:E; simpl.
    + apply String.eqb_eq in E. subst k0.
      destruct (String.eqb k k') eqn:E'; [|reflexivity].
      apply String.eqb_eq in E'. congruence.
    + destruct (String.eqb k0 k'); auto.
Qed.

Lemma sum_values_bump (d : dict Z) (k : string) :
  sum_Z (values (set d k (get d k 0 + 1))) = sum_Z (values d) + 1.
Proof.
  unfold values. induction d as [|[k' v'] d IH]; simpl; [lia|].
  destruct (String.eqb k' k) eqn:E; simpl.
  - lia.
  - rewrite IH. lia.
Qed.

Lemma get_absent {V} (d : dict V) (k : string) (default : V) :
  ~ In k (keys d) -> get d k default = default.
Proof.
  induction d as [|[k' v'] d IH]; simpl; intros H; [reflexivity|].
  destruct (String.eqb k' k) eqn:E.
  - apply String.eqb_eq in E. tauto.
  - apply IH. tauto.
Qed.

(** In a dict (no key twice), an item is what [get] returns for its key. *)
Lemma get_item {V} (d : dict V) (k : string) (v default : V) :
  NoDup (keys d) -> In (k, v) d -> get d k default = v.
Proof.
  induction d as [|[k' v'] d IH]; simpl; intros Hnd Hin; [contradiction|].
  inversion Hnd as [|? ? Hnotin Hnd']; subst.
  destruct Hin as [Heq|Hin].
  - inversion Heq; subst. rewrite String.eqb_refl. reflexivity.
  - destruct (String.eqb k' k) eqn:E.
    + apply String.eqb_eq in E. subst k'. exfalso. apply Hnotin.
      apply (in_map fst) in Hin. exact Hin.
    + apply IH; assumption.
Qed.

Lemma unseen_In (l seen : list string) (x : string) :
  In x (unseen seen l) <-> In x l /\ ~ In x seen.
Proof.
  revert seen. induction l as [|y l IH]; intros seen; simpl; [tauto|].
  destruct (existsb (String.eqb y) seen) eqn:E.
  - apply existsb_eqb_In in E. rewrite IH. split.
    + tauto.
    + intros [[->|H] Hn]; tauto.
  - assert (Hy : ~ In y seen).
    { intros H. apply existsb_eqb_In in H. congruence. }
    simpl. rewrite IH, in_app_iff. simpl.
    destruct (string_dec y x) as [->|Hne]; tauto.
Qed.

Lemma unseen_NoDup (l seen : list string) :
  NoDup seen -> NoDup (seen ++ unseen seen l).
Proof.
  revert seen. induction l as [|y l IH]; intros seen Hnd; simpl.
  - rewrite app_nil_r. exact Hnd.
  - destruct (existsb (String.eqb y) seen) eqn:E; [apply IH, Hnd|].
    assert (Hy : ~ In y seen).
    { intros H. apply existsb_eqb_In in H. congruence. }
    replace (seen ++ y :: unseen (seen ++ [y]) l)
      with ((seen ++ [y]) ++ unseen (seen ++ [y]) l)
      by (rewrite <- app_assoc; reflexivity).
    apply IH. apply NoDup_app; [exact Hnd | repeat constructor; simpl; tauto |].
    intros x Hx [<-|[]]. tauto.
Qed.

Lemma first_seen_In (l : list string) (x : string) :
  In x (first_seen l) <-> In x l.
Proof. unfold first_seen. rewrite unseen_In. simpl. tauto. Qed.

Lemma first_seen_NoDup (l : list string) : NoDup (first_seen l).
Proof. apply (unseen_NoDup l []). constructor. Qed.

Lemma unseen_ext (l seen seen' : list string) :
  (forall x, In x seen <-> In x seen') -> unseen seen l = unseen seen' l.
Proof.
  revert seen seen'. induction l as [|y l IH]; intros seen seen' H; simpl;
    [reflexivity|].
  assert (E : existsb (String.eqb y) seen = existsb (String.eqb y) seen').
  { apply eq_true_iff_eq. rewrite !existsb_eqb_In. apply H. }
  rewrite E. destruct (existsb (String.eqb y) seen').
  - apply IH, H.
  - f_equal. apply IH. intros x. rewrite !in_app_iff, H. tauto.
Qed.

Lemma unseen_cons (l seen : list string) (x : string) :
  unseen (x :: seen) l
  = filter (fun y => negb (String.eqb x y)) (unseen seen l).
Proof.
  revert seen. induction l as [|y l IH]; intros seen; simpl; [reflexivity|].
  rewrite (String.eqb_sym y x).
  destruct (String.eqb x y) eqn:E; simpl.
  - apply String.eqb_eq in E. subst y.
    destruct (existsb (String.eqb x) seen) eqn:E'; [apply IH|].
    simpl. rewrite String.eqb_refl. simpl.
    rewrite <- IH. apply unseen_ext. intros z. simpl. rewrite in_app_iff.
    simpl. tauto.
  - destruct (existsb (String.eqb y) seen); [apply IH|].
    simpl. rewrite E. simpl. f_equal. apply (IH (seen ++ [y])).
Qed.

(** The head of the list is seen first; the rest follows with the later
    occurrences of the head removed. *)
Lemma first_seen_cons (x : string) (l : list string) :
  first_seen (x :: l)
  = x :: filter (fun y => negb (String.eqb x y)) (first_seen l).
Proof. unfold first_seen. simpl. rewrite <- unseen_cons. reflexivity. Qed.

End DictFacts.

(** ** The breakdown by type *)

Section Breakdown.

Context {cv : CV2}.

Import PyDict DictFacts.

Lemma bump_keys (ds : list defect) :
  forall dt : dict Z,
  keys (fold_left bump ds dt) = keys dt ++ unseen (keys dt) (map d_type ds).
Proof.
  induction ds as [|d ds IH]; intros dt; cbn [fold_left map unseen].
  - rewrite app_nil_r. reflexivity.
  - rewrite IH. unfold bump. cbv zeta. rewrite keys_set.
    destruct (existsb (String.eqb (d_type d)) (keys dt)); [reflexivity|].
    rewrite <- app_assoc. reflexivity.
Qed.

Lemma bump_get (ds : list defect) (k : string) :
  forall dt : dict Z,
  get (fold_left bump ds dt) k 0 = get dt k 0 + occurrences k (map d_type ds).
Proof.
  unfold occurrences.
  induction ds as [|d ds IH]; intros dt; cbn [fold_left map count_occ]; [lia|].
  rewrite IH. unfold bump. cbv zeta.
  destruct (string_dec (d_type d) k) as [E|E].
  - rewrite E, get_set_same. lia.
  - rewrite get_set_other by congruence. lia.
Qed.

Lemma bump_sum (ds : list defect) :
  forall dt : dict Z,
  sum_Z (values (fold_left bump ds dt))
  = sum_Z (values dt) + Z.of_nat (List.length ds).
Proof.
  induction ds as [|d ds IH]; intros dt; cbn [fold_left List.length].
  - lia.
  - rewrite IH. unfold bump. cbv zeta. rewrite sum_values_bump. lia.
Qed.

(** C6. In every result, the keys of [defect_types] are the distinct types
    of the returned defects in the order in which they are first seen (each
    type that occurs is a key, once, and nothing else is); each key maps to
    the number of defects of that type; and the counts add up to
    [total_defects]. *)
Theorem defect_types_breakdown (self : DefectDetector) (image : ref)
    (h h' : heap) (r : detection) :
  detect_defects self image h = (h', Ok r) ->
  let breakdown := defect_types (stats r) in
  let types := map d_type (defects r) in
  keys breakdown = first_seen types /\
  NoDup (keys breakdown) /\
  (forall k, In k (keys breakdown) <-> exists d, In d (defects r) /\ d_type d = k) /\
  (forall k count, In (k, count) breakdown -> count = occurrences k types) /\
  (forall k, get breakdown k 0 = occurrences k types) /\
  sum_Z (values breakdown) = total_defects (stats r).
Proof.
  intros Hrun breakdown types.
  destruct (detect_defects_Ok _ _ _ _ _ Hrun)
    as (_ & _ & _ & _ & _ & _ & _ & _ & _ & _ & _ & Hs).
  assert (Hb : breakdown = count_types (defects r))
    by (unfold breakdown; rewrite Hs; reflexivity).
  assert (Hkeys : keys breakdown = first_seen types).
  { rewrite Hb. unfold count_types. rewrite bump_keys. reflexivity. }
  assert (Hget : forall k, get breakdown k 0 = occurrences k types).
  { intros k. rewrite Hb. unfold count_types. rewrite bump_get. reflexivity. }
  assert (Hnd : NoDup (keys breakdown))
    by (rewrite Hkeys; apply first_seen_NoDup).
  split; [exact Hkeys|]. split; [exact Hnd|]. split; [|split; [|split]].
  - intros k. rewrite Hkeys, first_seen_In. unfold types. rewrite in_map_iff.
    split; intros (d & H1 & H2); exists d; auto.
  - intros k count Hin. rewrite <- Hget. symmetry. apply get_item; assumption.
  - exact Hget.
  - rewrite Hb, Hs. unfold count_types. rewrite bump_sum. reflexivity.
Qed.

End Breakdown.

(** ** The report *)

Section ReportFacts.

Context {cv : CV2}.
Variable strftime_now : string -> string.
Variable path_join : string -> string -> string.
Variable path_str : string -> string.

(** A loop that writes one row per element appends the rows in order. *)
Lemma fold_writerow {X} (step : csv_file -> X -> csv_file) (g : X -> row)
    (xs : list X) :
  (forall f x, step f x = writerow f (g x)) ->
  forall f, fold_left step xs f = f ++ map g xs.
Proof.
  intros Hstep. induction xs as [|x xs IH]; intros f; simpl.
  - rewrite app_nil_r. reflexivity.
  - rewrite IH, Hstep. unfold writerow. rewrite <- app_assoc. reflexivity.
Qed.

Lemma nth_error_enumerate {A} (xs : list A) (k : nat) (x : A) :
  forall start : Z,
  nth_error xs k = Some x ->
  nth_error (enumerate xs start) k = Some (start + Z.of_nat k, x).
Proof.
  revert k. induction xs as [|y xs IH]; intros [|k] start; simpl; intros H;
    try discriminate H.
  - inversion H. rewrite Z.add_0_r. reflexivity.
  - rewrite (IH k (start + 1) H). f_equal. f_equal. lia.
Qed.

Lemma length_enumerate {A} (xs : list A) :
  forall start : Z, List.length (enumerate xs start) = List.length xs.
Proof.
  induction xs as [|y xs IH]; intros start; simpl; [reflexivity|].
  rewrite IH. reflexivity.
Qed.

(** The rows of the report, block by block. *)
Lemma generate_report_rows (self : ReportGenerator) (image_name : string)
    (r : detection) (output_file : option string) :
  exists before : csv_file,
    List.length before = rows_before_table (defect_types (stats r)) /\
    snd (generate_report strftime_now path_join path_str
           self image_name r output_file)
    = before ++ [["Detailed Defect List"]; columns]
        ++ map (fun p => detail_row (fst p) (snd p)) (enumerate (defects r) 1).
Proof.
  unfold generate_report. cbn [snd].
  rewrite (fold_writerow _ (fun p => detail_row (fst p) (snd p))).
  2:{ intros f [i d]. unfold detail_row. cbn [fst snd].
      destruct (d_bbox d) as [[[x y] w] hh]. reflexivity. }
  rewrite (fold_writerow _ (fun p : string * Z => [fst p; str_int (snd p)])).
  2:{ intros f [t n]. reflexivity. }
  unfold writerow. eexists. split.
  2:{ do 2 rewrite <- app_assoc. reflexivity. }
  rewrite !length_app, length_map. unfold rows_before_table. simpl. lia.
Qed.

(** C9. The detailed table of the report starts right after the header,
    summary and breakdown blocks with the title row and the column row
    ID, Type, Area (mm2), Area (pixels), X, Y, Width, Height, Aspect Ratio,
    Circularity; it then has exactly one row per defect, in the order of
    [defects], and ends the report. The row of the defect at position [k]
    (from 0) carries the identifier [k + 1], the type, the two areas with 2
    decimals, the four integers of the bounding box, and the aspect ratio
    and circularity with 2 decimals. *)
Theorem report_detail_table (self : ReportGenerator) (image_name : string)
    (r : detection) (output_file : option string) :
  let rows := snd (generate_report strftime_now path_join path_str
                     self image_name r output_file) in
  let start := rows_before_table (defect_types (stats r)) in
  nth_error rows start = Some ["Detailed Defect List"] /\
  nth_error rows (start + 1)
    = Some ["ID"; "Type"; "Area (mm²)"; "Area (pixels)";
            "X"; "Y"; "Width"; "Height"; "Aspect Ratio"; "Circularity"] /\
  List.length rows = (start + 2 + List.length (defects r))%nat /\
  (forall k d, nth_error (defects r) k = Some d ->
     nth_error rows (start + 2 + k) = Some (detail_row (Z.of_nat k + 1) d)) /\
  (forall (i : Z) (d : defect),
     let '(x, y, w, h) := d_bbox d in
     detail_row i d =
       [str_int i; d_type d;
        format_f 2 (d_area_mm d); format_f 2 (d_area_pixels d);
        str_int x; str_int y; str_int w; str_int h;
        format_f 2 (d_aspect_ratio d); format_f 2 (d_circularity d)]).
Proof.
  intros rows start.
  destruct (generate_report_rows self image_name r output_file)
    as (before & Hlen & Hrows).
  fold rows in Hrows. fold start in Hlen. rewrite Hrows.
  split; [|split; [|split; [|split]]].
  - rewrite nth_error_app2 by lia. rewrite Hlen, Nat.sub_diag. reflexivity.
  - rewrite nth_error_app2 by lia.
    replace (start + 1 - List.length before)%nat with 1%nat by lia.
    reflexivity.
  - rewrite !length_app, length_map, length_enumerate, Hlen. simpl. lia.
  - intros k d Hk.
    rewrite nth_error_app2 by lia.
    replace (start + 2 + k - List.length before)%nat with (2 + k)%nat by lia.
    cbn [app nth_error Nat.add].
    rewrite nth_error_map, (nth_error_enumerate _ _ _ 1 Hk).
    cbn [option_map fst snd]. rewrite (Z.add_comm 1). reflexivity.
  - intros i d. unfold detail_row.
    destruct (d_bbox d) as [[[x y] w] hh]. reflexivity.
Qed.

End ReportFacts.

(** ** What an image without usable regions gives *)

Section NoRegions.

Context {cv : CV2}.

(** An error raised by the colour conversion, the first call of the
    pipeline, is the outcome of the detector; nothing has been allocated. *)
Lemma detect_defects_cvtColor_raises (self : DefectDetector) (image : ref)
    (h : heap) (a : ndarray) (e : exn) :
  nth_error h image = Some a ->
  cvtColor a COLOR_BGR2GRAY = Raise e ->
  detect_defects self image h = (h, Raise e).
Proof.
  intros Ha He.
  unfold detect_defects, find_contours, cv_new, bind, load, lift.
  rewrite Ha, He. reflexivity.
Qed.

(** When the pipeline finds no boundary, the result has no defect, a total
    area of 0, an empty breakdown, and passes. *)
Lemma detect_defects_no_contours (self : DefectDetector) (image : ref)
    (h h1 : heap) :
  find_contours self image h = (h1, Ok []) ->
  exists h' r,
    detect_defects self image h = (h', Ok r) /\
    defects r = [] /\
    total_defects (stats r) = 0 /\
    total_area_mm (stats r) = 0%float /\
    defect_types (stats r) = [] /\
    pass (stats r) = true /\ fail (stats r) = false.
Proof.
  intros Hf.
  destruct (find_contours_Ok_loaded _ _ _ _ _ Hf) as (a & Ha).
  destruct (frames_find_contours (List.length h) self image h (le_n _))
    as (_ & Hfr & _).
  rewrite Hf in Hfr. simpl in Hfr.
  pose proof (Hfr _ (nth_error_Some_lt _ _ _ Ha)) as Ha1. rewrite Ha in Ha1.
  unfold detect_defects, bind at 1. rewrite Hf.
  unfold bind at 1, np_copy, bind at 1, load. rewrite Ha1.
  unfold alloc, bind, for_each, ret.
  eexists _, _. split; [reflexivity|]. simpl. repeat split.
Qed.

End NoRegions.

(** ** The detector and the report on a synthetic scene *)

Module Examples.

Import Synthetic.

Lemma run_returns : run = (fst run, Ok found).
Proof. vm_compute. reflexivity. Qed.

Example found_types :
  map d_type (defects found) = ["Crack"; "Hole"; "Crack"; "Small Defect"].
Proof. vm_compute. reflexivity. Qed.

Example found_breakdown :
  defect_types (stats found) = [("Crack", 2); ("Hole", 1); ("Small Defect", 1)].
Proof. vm_compute. reflexivity. Qed.

Lemma defects_meet_min_size_witness :
  run = (fst run, Ok found) /\
  forall d, In d (defects found) ->
    d_area_mm d = (d_area_pixels d * 0.1)%float /\
    flt (d_area_mm d) 5.0%float = false /\
    (is_nan (d_area_mm d) = false -> is_nan 5.0%float = false ->
     fge (d_area_mm d) 5.0%float = true).
Proof.
  split; [vm_compute; reflexivity|].
  apply (defects_meet_min_size (cv := cv) init 0%nat [scene] (fst run) found).
  vm_compute; reflexivity.
Defined.

Lemma pass_fail_complementary_witness :
  run = (fst run, Ok found) /\
  total_defects (stats found) = 4 /\
  pass (stats found) = false /\ fail (stats found) = true /\
  pass (stats found) = negb (fail (stats found)).
Proof.
  split; [vm_compute; reflexivity|].
  split; [vm_compute; reflexivity|].
  split; [vm_compute; reflexivity|].
  split; [vm_compute; reflexivity|].
  apply (pass_fail_complementary (cv := cv) init 0%nat [scene] (fst run) found).
  vm_compute; reflexivity.
Defined.

Lemma total_area_is_sum_witness :
  run = (fst run, Ok found) /\
  total_area_mm (stats found) = py_sum (map d_area_mm (defects found)).
Proof.
  split; [vm_compute; reflexivity|].
  apply (total_area_is_sum (cv := cv) init 0%nat [scene] (fst run) found).
  vm_compute; reflexivity.
Defined.

Lemma defect_types_breakdown_witness :
  run = (fst run, Ok found) /\
  PyDict.keys (defect_types (stats found))
    = first_seen (map d_type (defects found)) /\
  sum_Z (PyDict.values (defect_types (stats found))) = total_defects (stats found).
Proof.
  split; [vm_compute; reflexivity|].
  pose proof (defect_types_breakdown (cv := cv) init 0%nat [scene] (fst run) found) as H.
  split; apply H; vm_compute; reflexivity.
Defined.

Lemma degenerate_geometry_absorbed_witness :
  aspect_ratio_of 7 0 = Ok 0%float /\
  aspect_ratio_of 100 10 = Ok 10%float /\
  circularity_of 3%float 0%float = Ok 0%float /\
  circularity_of 314%float 63%float
    = Ok (4 * np_pi * 314 / (63 * 63))%float.
Proof.
  destruct degenerate_geometry_absorbed as (H1 & H2 & H3 & _ & H5 & _).
  split; [apply H1|]. split; [apply (H2 100 10); lia|].
  split; [apply H3; reflexivity|]. apply H5; reflexivity.
Defined.

Example report_table :
  skipn 14 (snd report)
  = [ ["Detailed Defect List"];
      ["ID"; "Type"; "Area (mm²)"; "Area (pixels)"; "X"; "Y"; "Width"; "Height";
       "Aspect Ratio"; "Circularity"];
      ["1"; "Crack"; "40.00"; "400.00"; "10"; "20"; "100"; "10"; "10.00"; "0.10"];
      ["2"; "Hole"; "31.40"; "314.00"; "200"; "50"; "20"; "20"; "1.00"; "0.99"];
      ["3"; "Crack"; "9.00"; "90.00"; "0"; "300"; "3"; "60"; "0.05"; "0.08"];
      ["4"; "Small Defect"; "5.00"; "50.00"; "70"; "70"; "8"; "8"; "1.00"; "0.39"] ].
Proof. vm_compute. reflexivity. Qed.

End Examples.

(** * Further properties *)

(** ** The order of binary64 numbers is transitive *)

Module FloatTrans.

Import FloatFacts.

Ltac cmp_cases :=
  repeat match goal with
         | |- context [(?a ?= ?b)%Z] => destruct (Z.compare_spec a b)
         | H : context [(?a ?= ?b)%Z] |- _ => destruct (Z.compare_spec a b)
         | |- context [(?a ?= ?b)%positive] => destruct (Pos.compare_spec a b)
         | H : context [(?a ?= ?b)%positive] |- _ => destruct (Pos.compare_spec a b)
         end.

Lemma SFltb_leb_trans (x y z : spec_float) :
  SFltb x y = true -> SFleb y z = true -> SFltb x z = true.
Proof.
  unfold SFltb, SFleb.
  destruct x as [[]|[]| |[] mx ex], y as [[]|[]| |[] my ey],
           z as [[]|[]| |[] mz ez]; simpl; try easy;
    change (Pos.compare_cont Eq) with Pos.compare;
    cmp_cases; simpl in *; subst; try easy; try lia.
Qed.

Lemma SFleb_ltb_trans (x y z : spec_float) :
  SFleb x y = true -> SFltb y z = true -> SFltb x z = true.
Proof.
  unfold SFltb, SFleb.
  destruct x as [[]|[]| |[] mx ex], y as [[]|[]| |[] my ey],
           z as [[]|[]| |[] mz ez]; simpl; try easy;
    change (Pos.compare_cont Eq) with Pos.compare;
    cmp_cases; simpl in *; subst; try easy; try lia.
Qed.

(** [x < y <= z] gives [x < z]. *)
Lemma flt_fle_trans (x y z : float) :
  flt x y = true -> fle y z = true -> flt x z = true.
Proof.
  unfold flt, fle. rewrite !ltb_spec, leb_spec. apply SFltb_leb_trans.
Qed.

(** [x <= y < z] gives [x < z]. *)
Lemma fle_flt_trans (x y z : float) :
  fle x y = true -> flt y z = true -> flt x z = true.
Proof.
  unfold flt, fle. rewrite !ltb_spec, leb_spec. apply SFleb_ltb_trans.
Qed.

(** [x < y] excludes [y < x] and gives [x <= y]. *)
Lemma flt_asym (x y : float) : flt x y = true -> flt y x = false.
Proof.
  unfold flt. rewrite !ltb_spec. unfold SFltb.
  rewrite (SFcompare_antisym (Prim2SF x) (Prim2SF y)).
  destruct (SFcompare (Prim2SF x) (Prim2SF y)) as [[]|]; simpl; congruence.
Qed.

(** [x <= y] and [y <= x] give [x == y]. *)
Lemma fle_antisym (x y : float) :
  fle x y = true -> fle y x = true -> feq x y = true.
Proof.
  unfold fle, feq. rewrite !leb_spec, eqb_spec. unfold SFleb, SFeqb.
  rewrite (SFcompare_antisym (Prim2SF x) (Prim2SF y)).
  destruct (SFcompare (Prim2SF x) (Prim2SF y)) as [[]|]; simpl; congruence.
Qed.

(** A comparison with a NaN is false. *)
Lemma flt_nan_l (x y : float) : is_nan x = true -> flt x y = false.
Proof.
  rewrite is_nan_spec. unfold flt. rewrite ltb_spec. unfold SFltb.
  destruct (Prim2SF x); try discriminate. reflexivity.
Qed.

Lemma flt_nan_r (x y : float) : is_nan y = true -> flt x y = false.
Proof.
  rewrite is_nan_spec. unfold flt. rewrite ltb_spec. unfold SFltb.
  destruct (Prim2SF y); try discriminate.
  destruct (Prim2SF x); reflexivity.
Qed.

Lemma fle_not_nan (x y : float) :
  fle x y = true -> is_nan x = false /\ is_nan y = false.
Proof.
  rewrite !is_nan_spec. unfold fle. rewrite leb_spec. unfold SFleb.
  destruct (Prim2SF x), (Prim2SF y); simpl; try discriminate; auto.
Qed.

Lemma feq_not_nan (x y : float) :
  feq x y = true -> is_nan x = false /\ is_nan y = false.
Proof.
  rewrite !is_nan_spec. unfold feq. rewrite eqb_spec. unfold SFeqb.
  destruct (Prim2SF x), (Prim2SF y); simpl; try discriminate; auto.
Qed.

End FloatTrans.

(** ** What a category says about the region *)

Section ClassifierMore.

Import FloatFacts FloatTrans.

(** The classifier returns one of the six categories. *)
Lemma _classify_defect_range (area_mm aspect_ratio circularity : float) :
  In (_classify_defect area_mm aspect_ratio circularity)
     ["Crack"; "Hole"; "Irregular Shape"; "Misalignment"; "Large Defect";
      "Small Defect"].
Proof.
  rewrite _classify_defect_rules.
  destruct (rule1 aspect_ratio), (rule2 circularity), (rule3 circularity),
           (rule4 area_mm), (rule5 area_mm); simpl; auto 10.
Qed.

(** X1. Each category is returned only when its rule is the first that matches:
    the category of a region tells which tests its measurements pass. *)
Theorem classify_inversion (area_mm aspect_ratio circularity : float) :
  let category := _classify_defect area_mm aspect_ratio circularity in
  (category = "Crack" <-> rule1 aspect_ratio = true) /\
  (category = "Hole" <->
     rule1 aspect_ratio = false /\ rule2 circularity = true) /\
  (category = "Irregular Shape" <->
     rule1 aspect_ratio = false /\ rule2 circularity = false /\
     rule3 circularity = true) /\
  (category = "Misalignment" <->
     rule1 aspect_ratio = false /\ rule2 circularity = false /\
     rule3 circularity = false /\ rule4 area_mm = true) /\
  (category = "Large Defect" <->
     rule1 aspect_ratio = false /\ rule2 circularity = false /\
     rule3 circularity = false /\ rule5 area_mm = true) /\
  (category = "Small Defect" <->
     rule1 aspect_ratio = false /\ rule2 circularity = false /\
     rule3 circularity = false /\ rule4 area_mm = false /\
     rule5 area_mm = false).
Proof.
  intros category. subst category. rewrite _classify_defect_rules.
  assert (H45 : rule5 area_mm = true -> rule4 area_mm = false).
  { unfold rule4, rule5, fgt. intros H.
    rewrite (flt_asym _ _ H). apply andb_false_r. }
  destruct (rule1 aspect_ratio), (rule2 circularity), (rule3 circularity),
           (rule4 area_mm) eqn:E4, (rule5 area_mm) eqn:E5;
    try (specialize (H45 eq_refl); discriminate H45);
    repeat split; intros; try discriminate; try reflexivity;
    repeat match goal with H : _ /\ _ |- _ => destruct H end;
    try discriminate.
Qed.

(** X2. Without a match among rules 1 to 3 the category is decided by the area:
    Misalignment strictly between 10 and 50, Large Defect above 50, and Small
    Defect for the rest, which is an area of at most 10, of exactly 50, or an
    area that is not a number. *)
Theorem classify_area_bands (area_mm aspect_ratio circularity : float) :
  rule1 aspect_ratio = false -> rule2 circularity = false ->
  rule3 circularity = false ->
  let category := _classify_defect area_mm aspect_ratio circularity in
  (category = "Misalignment" <->
     flt 10%float area_mm = true /\ flt area_mm 50%float = true) /\
  (category = "Large Defect" <-> fgt area_mm 50%float = true) /\
  (category = "Small Defect" <->
     is_nan area_mm = true \/ fle area_mm 10%float = true \/
     feq area_mm 50%float = true).
Proof.
  intros H1 H2 H3 category. subst category.
  rewrite (classify_by_area _ _ _ H1 H2 H3).
  assert (H45 : rule5 area_mm = true -> rule4 area_mm = false).
  { unfold rule4, rule5, fgt. intros H.
    rewrite (flt_asym _ _ H). apply andb_false_r. }
  assert (HM : (if rule4 area_mm then "Misalignment"
                else if rule5 area_mm then "Large Defect" else "Small Defect")
               = "Misalignment" <-> rule4 area_mm = true).
  { destruct (rule4 area_mm), (rule5 area_mm); split; intros H;
      try reflexivity; discriminate H. }
  assert (HL : (if rule4 area_mm then "Misalignment"
                else if rule5 area_mm then "Large Defect" else "Small Defect")
               = "Large Defect" <-> rule5 area_mm = true).
  { destruct (rule4 area_mm), (rule5 area_mm) eqn:E5; split; intros H;
      try reflexivity; try discriminate H.
    specialize (H45 eq_refl). discriminate H45. }
  assert (HS : (if rule4 area_mm then "Misalignment"
                else if rule5 area_mm then "Large Defect" else "Small Defect")
               = "Small Defect" <->
               rule4 area_mm = false /\ rule5 area_mm = false).
  { destruct (rule4 area_mm), (rule5 area_mm); split;
      try (intros [H H']); try intros H; try reflexivity; try discriminate;
      auto. }
  rewrite HM, HL, HS. clear HM HL HS H45.
  unfold rule4, rule5. split; [|split].
  - rewrite andb_true_iff. tauto.
  - tauto.
  - split.
    + intros (H4 & H5).
      destruct (is_nan area_mm) eqn:Hnan; [left; reflexivity | right].
      assert (Hle50 : fle area_mm 50%float = true)
        by (apply (not_flt_fge 50%float area_mm); auto).
      apply andb_false_iff in H4. destruct H4 as [H4|H4].
      * left. apply (not_flt_fge 10%float area_mm); auto.
      * right. apply fle_antisym; [exact Hle50|].
        apply (not_flt_fge area_mm 50%float); auto.
    + assert (H4 : forall b, flt 10%float area_mm = false -> flt 10%float area_mm && b = false)
        by (intros b E; rewrite E; reflexivity).
      intros [Hnan|[Hle|Heq]]; repeat split; auto.
      * apply H4, flt_nan_r, Hnan.
      * apply (flt_nan_r 50%float), Hnan.
      * apply H4. apply (fle_not_fgt _ _ Hle).
      * apply (flt_asym area_mm 50%float).
        apply (fle_flt_trans _ 10%float); [exact Hle|reflexivity].
      * rewrite (feq_not_flt _ _ Heq). apply andb_false_r.
      * apply feq_not_fgt, Heq.
Qed.

Lemma classify_area_bands_witness :
  _classify_defect 30%float 1.0%float 0.5%float = "Misalignment" /\
  _classify_defect 50.5%float 1.0%float 0.5%float = "Large Defect" /\
  _classify_defect 50%float 1.0%float 0.5%float = "Small Defect" /\
  _classify_defect 10%float 1.0%float 0.5%float = "Small Defect" /\
  _classify_defect nan 1.0%float 0.5%float = "Small Defect".
Proof.
  split; [|split; [|split; [|split]]].
  - apply (classify_area_bands 30%float 1.0%float 0.5%float eq_refl eq_refl eq_refl).
    split; reflexivity.
  - apply (classify_area_bands 50.5%float 1.0%float 0.5%float eq_refl eq_refl eq_refl).
    reflexivity.
  - apply (classify_area_bands 50%float 1.0%float 0.5%float eq_refl eq_refl eq_refl).
    right; right; reflexivity.
  - apply (classify_area_bands 10%float 1.0%float 0.5%float eq_refl eq_refl eq_refl).
    right; left; reflexivity.
  - apply (classify_area_bands nan 1.0%float 0.5%float eq_refl eq_refl eq_refl).
    left; reflexivity.
Defined.

(** X3. The colour table has an entry for exactly the six categories: any other
    string gets the default white, and no category does. *)
Theorem _get_defect_color_default (defect_type : string) :
  _get_defect_color defect_type = (255, 255, 255) <->
  ~ In defect_type
      ["Crack"; "Hole"; "Irregular Shape"; "Misalignment"; "Large Defect";
       "Small Defect"].
Proof.
  split.
  - intros H Hin. simpl in Hin.
    destruct Hin as [<-|[<-|[<-|[<-|[<-|[<-|[]]]]]]]; discriminate H.
  - intros H. unfold _get_defect_color, colors. cbn [PyDict.get].
    repeat match goal with
           | |- context [String.eqb ?k defect_type] =>
               destruct (String.eqb_spec k defect_type) as [E|E];
               [exfalso; apply H; rewrite <- E; simpl; auto 10 | clear E]
           end.
    reflexivity.
Qed.

(** X4. Every region the classifier labels is drawn in the colour of its own
    category: never in the default white, and two regions drawn in the same
    colour have the same category. *)
Theorem classified_colors_distinct
    (a1 r1 c1 a2 r2 c2 : float) :
  let t1 := _classify_defect a1 r1 c1 in
  let t2 := _classify_defect a2 r2 c2 in
  _get_defect_color t1 <> (255, 255, 255) /\
  (_get_defect_color t1 = _get_defect_color t2 -> t1 = t2).
Proof.
  intros t1 t2.
  pose proof (_classify_defect_range a1 r1 c1) as H1.
  pose proof (_classify_defect_range a2 r2 c2) as H2.
  fold t1 in H1. fold t2 in H2. clearbody t1 t2. simpl in H1, H2.
  split.
  - intuition (subst; discriminate).
  - intuition (subst; try reflexivity; discriminate).
Qed.

End ClassifierMore.

(** ** The detector as a function of the pixels

    What [detect_defects] computes, without the heap: the boundaries of an
    array, one step of the loop on the list of defects and the annotated
    pixels, and the whole run. *)

Section PureDetector.

Context {cv : CV2}.

Definition rbind {A B} (r : result A) (k : A -> result B) : result B :=
  match r with
  | Ok a => k a
  | Raise e => Raise e
  end.

Definition contours_of (self : DefectDetector) (a : ndarray) : result (list Contour) :=
  rbind (cvtColor a COLOR_BGR2GRAY) (fun gray =>
  rbind (GaussianBlur gray (5, 5) 0) (fun blurred =>
  rbind (Canny blurred (edge_threshold1 self) (edge_threshold2 self)) (fun edges =>
  rbind (dilate edges (np_ones (3, 3)) 1) (fun dilated =>
  findContours dilated RETR_EXTERNAL CHAIN_APPROX_SIMPLE)))).

Definition visit_pure (self : DefectDetector) (st : list defect * ndarray)
    (contour : Contour) : result (list defect * ndarray) :=
  let '(defects, img) := st in
  let area_pixels := contourArea contour in
  let area_mm := (area_pixels * 0.1)%float in
  if flt area_mm (min_defect_size self) then Ok (defects, img)
  else
    let '(x, y, w, h) := boundingRect contour in
    rbind (aspect_ratio_of w h) (fun aspect_ratio =>
    rbind (circularity_of area_pixels (arcLength contour true)) (fun circularity =>
    let defect :=
      {| d_type := _classify_defect area_mm aspect_ratio circularity;
         d_area_mm := area_mm;
         d_area_pixels := area_pixels;
         d_bbox := (x, y, w, h);
         d_aspect_ratio := aspect_ratio;
         d_circularity := circularity;
         d_contour := contour |} in
    rbind (paint img defect) (fun img' => Ok (defects ++ [defect], img')))).

Fixpoint visit_all (self : DefectDetector) (contours : list Contour)
    (st : list defect * ndarray) : result (list defect * ndarray) :=
  match contours with
  | [] => Ok st
  | c :: cs => rbind (visit_pure self st c) (visit_all self cs)
  end.

Definition detect_pure (self : DefectDetector) (a : ndarray)
  : result (list defect * ndarray) :=
  rbind (contours_of self a) (fun contours => visit_all self contours ([], a)).

(** What a caller reads from an outcome, the reference of the annotated
    image left aside. *)
Definition findings (o : result detection) : result (list defect * statistics) :=
  match o with
  | Ok r => Ok (defects r, stats r)
  | Raise e => Raise e
  end.

Lemma nth_error_snoc (h : heap) (a : ndarray) :
  nth_error (h ++ [a]) (List.length h) = Some a.
Proof. rewrite nth_error_app2 by lia. rewrite Nat.sub_diag. reflexivity. Qed.

Lemma cv_new_run (f : ndarray -> result ndarray) (src : ref) (h : heap) (a : ndarray) :
  nth_error h src = Some a ->
  cv_new f src h =
  match f a with
  | Ok b => (h ++ [b], Ok (List.length h))
  | Raise e => (h, Raise e)
  end.
Proof.
  intros Ha. unfold cv_new, bind, load, lift, alloc. rewrite Ha.
  destruct (f a); reflexivity.
Qed.

Lemma cv_draw_run (f : ndarray -> result ndarray) (r : ref) (h : heap) (a : ndarray) :
  nth_error h r = Some a ->
  cv_draw f r h =
  match f a with
  | Ok b => (update h r b, Ok tt)
  | Raise e => (h, Raise e)
  end.
Proof.
  intros Ha. unfold cv_draw, bind, load, lift, store. rewrite Ha.
  destruct (f a); reflexivity.
Qed.

Lemma bind_run {A B} (m : M A) (k : A -> M B) (h h1 : heap) (a : A) :
  m h = (h1, Ok a) -> bind m k h = k a h1.
Proof. intros H. unfold bind. rewrite H. reflexivity. Qed.

Lemma bind_raise {A B} (m : M A) (k : A -> M B) (h : heap) (e : exn) :
  snd (m h) = Raise e -> snd (bind m k h) = Raise e.
Proof.
  unfold bind. destruct (m h) as [h1 [a|e']]; simpl; intros H;
    [discriminate H | inversion H; reflexivity].
Qed.

(** The pipeline creates five arrays and returns the boundaries of the
    pixels, or raises what the first failing stage raises. *)
Lemma find_contours_run (self : DefectDetector) (image : ref) (h : heap) (a : ndarray) :
  nth_error h image = Some a ->
  match contours_of self a with
  | Ok contours =>
      exists g b e d,
        find_contours self image h
        = (h ++ [g; b; e; np_ones (3, 3); d], Ok contours)
  | Raise e => snd (find_contours self image h) = Raise e
  end.
Proof.
  intros Ha. unfold find_contours, contours_of.
  pose proof (cv_new_run (fun a => cvtColor a COLOR_BGR2GRAY) _ _ _ Ha) as S1.
  cbv beta in S1.
  destruct (cvtColor a COLOR_BGR2GRAY) as [g|e0]; cbn [rbind];
    [|apply bind_raise; rewrite S1; reflexivity].
  rewrite (bind_run _ _ _ _ _ S1).
  pose proof (cv_new_run (fun a => GaussianBlur a (5, 5) 0) _ _ _
                (nth_error_snoc h g)) as S2.
  cbv beta in S2.
  destruct (GaussianBlur g (5, 5) 0) as [b|e0]; cbn [rbind];
    [|apply bind_raise; rewrite S2; reflexivity].
  rewrite (bind_run _ _ _ _ _ S2).
  pose proof (cv_new_run
                (fun a => Canny a (edge_threshold1 self) (edge_threshold2 self))
                _ _ _ (nth_error_snoc (h ++ [g]) b)) as S3.
  cbv beta in S3.
  destruct (Canny b (edge_threshold1 self) (edge_threshold2 self)) as [e|e0];
    cbn [rbind]; [|apply bind_raise; rewrite S3; reflexivity].
  rewrite (bind_run _ _ _ _ _ S3).
  set (h3 := ((h ++ [g]) ++ [b]) ++ [e]).
  rewrite (bind_run (alloc (np_ones (3, 3))) _ h3 (h3 ++ [np_ones (3, 3)])
             (List.length h3) eq_refl).
  rewrite (bind_run (load (List.length h3)) _ _ (h3 ++ [np_ones (3, 3)])
             (np_ones (3, 3))).
  2:{ unfold load. rewrite nth_error_snoc. reflexivity. }
  assert (He : nth_error (h3 ++ [np_ones (3, 3)]) (List.length ((h ++ [g]) ++ [b]))
               = Some e).
  { rewrite nth_error_app1 by (unfold h3; rewrite !length_app; simpl; lia).
    apply nth_error_snoc. }
  pose proof (cv_new_run (fun a => dilate a (np_ones (3, 3)) 1) _ _ _ He) as S4.
  cbv beta in S4.
  destruct (dilate e (np_ones (3, 3)) 1) as [d|e0]; cbn [rbind];
    [|apply bind_raise; rewrite S4; reflexivity].
  rewrite (bind_run _ _ _ _ _ S4).
  set (h5 := (h3 ++ [np_ones (3, 3)]) ++ [d]).
  rewrite (bind_run (load (List.length (h3 ++ [np_ones (3, 3)]))) _ h5 h5 d).
  2:{ unfold load, h5. rewrite nth_error_snoc. reflexivity. }
  unfold lift.
  destruct (findContours d RETR_EXTERNAL CHAIN_APPROX_SIMPLE) as [cs|e0];
    [|reflexivity].
  exists g, b, e, d. unfold h5, h3. rewrite <- !app_assoc. reflexivity.
Qed.

(** One iteration: the heap changes at the annotated image only, as the
    pure step says. *)
Lemma visit_contour_run (self : DefectDetector) (ann : ref) (ds : list defect)
    (c : Contour) (h : heap) (img : ndarray) :
  nth_error h ann = Some img ->
  match visit_pure self (ds, img) c with
  | Ok (ds', img') => visit_contour self ann ds c h = (update h ann img', Ok ds')
  | Raise e => snd (visit_contour self ann ds c h) = Raise e
  end.
Proof.
  intros Himg. unfold visit_pure, visit_contour.
  destruct (flt (contourArea c * 0.1) (min_defect_size self)).
  { rewrite (update_same _ _ _ Himg). reflexivity. }
  destruct (boundingRect c) as [[[x y] w] hh].
  destruct (aspect_ratio_of w hh) as [ar|e0]; cbn [rbind]; [|reflexivity].
  rewrite (bind_run (lift (Ok ar)) _ h h ar eq_refl).
  destruct (circularity_of (contourArea c) (arcLength c true)) as [ci|e0];
    cbn [rbind]; [|reflexivity].
  rewrite (bind_run (lift (Ok ci)) _ h h ci eq_refl).
  set (d := {| d_type := _classify_defect (contourArea c * 0.1) ar ci;
               d_area_mm := (contourArea c * 0.1)%float;
               d_area_pixels := contourArea c;
               d_bbox := (x, y, w, hh);
               d_aspect_ratio := ar;
               d_circularity := ci;
               d_contour := c |}).
  pose proof (nth_error_Some_lt _ _ _ Himg) as Hlt.
  unfold paint, label_of. cbn [d_bbox d_type d_contour d_area_mm d].
  fold d.
  match goal with
  | |- context [cv_draw ?f ann] =>
      pose proof (cv_draw_run f ann h img Himg) as S1; cbv beta in S1
  end.
  destruct (drawContours img [c] (-1) _ 2) as [a1|e0];
    [|apply bind_raise; rewrite S1; reflexivity].
  rewrite (bind_run _ _ _ _ _ S1).
  match goal with
  | |- context [bind (cv_draw ?f ann)] =>
      pose proof (cv_draw_run f ann (update h ann a1) a1
                    (nth_error_update_eq _ _ _ Hlt)) as S2; cbv beta in S2
  end.
  destruct (rectangle a1 (x, y) (x + w, y + hh) _ 2) as [a2|e0];
    [|apply bind_raise; rewrite S2; reflexivity].
  rewrite (bind_run _ _ _ _ _ S2). rewrite update_update.
  match goal with
  | |- context [bind (cv_draw ?f ann)] =>
      pose proof (cv_draw_run f ann (update h ann a2) a2
                    (nth_error_update_eq _ _ _ Hlt)) as S3; cbv beta in S3
  end.
  destruct (putText a2 _ (x, y - 10) FONT_HERSHEY_SIMPLEX 0.5 _ 2) as [a3|e0];
    [|apply bind_raise; rewrite S3; reflexivity].
  rewrite (bind_run _ _ _ _ _ S3). rewrite update_update. reflexivity.
Qed.

Lemma for_each_visit_run (self : DefectDetector) (ann : ref) (cs : list Contour) :
  forall (ds : list defect) (h : heap) (img : ndarray),
  nth_error h ann = Some img ->
  match visit_all self cs (ds, img) with
  | Ok (ds', img') =>
      for_each (visit_contour self ann) cs ds h = (update h ann img', Ok ds')
  | Raise e => snd (for_each (visit_contour self ann) cs ds h) = Raise e
  end.
Proof.
  induction cs as [|c cs IH]; intros ds h img Himg; cbn [visit_all for_each].
  - rewrite (update_same _ _ _ Himg). reflexivity.
  - pose proof (visit_contour_run self ann ds c h img Himg) as Hv.
    destruct (visit_pure self (ds, img) c) as [[ds1 img1]|e0]; cbn [rbind];
      [|apply bind_raise, Hv].
    rewrite (bind_run _ _ _ _ _ Hv).
    pose proof (nth_error_Some_lt _ _ _ Himg) as Hlt.
    specialize (IH ds1 (update h ann img1) img1 (nth_error_update_eq _ _ _ Hlt)).
    destruct (visit_all self cs (ds1, img1)) as [[ds' img']|e0]; [|exact IH].
    rewrite IH, update_update. reflexivity.
Qed.

(** The whole call: it returns the defects and statistics of the pure run,
    with the annotated pixels in the sixth array it created; or it raises
    what the pure run raises. *)
Lemma detect_defects_run (self : DefectDetector) (image : ref) (h : heap) (a : ndarray) :
  nth_error h image = Some a ->
  match detect_pure self a with
  | Ok (ds, img) =>
      exists h',
        detect_defects self image h
        = (h', Ok {| defects := ds;
                     annotated_image := (List.length h + 5)%nat;
                     stats := summary ds |}) /\
        nth_error h' (List.length h + 5) = Some img /\
        List.length h' = (List.length h + 6)%nat /\
        (forall l, (l < List.length h)%nat -> nth_error h' l = nth_error h l)
  | Raise e => snd (detect_defects self image h) = Raise e
  end.
Proof.
  intros Ha. unfold detect_pure, detect_defects.
  pose proof (find_contours_run self image h a Ha) as Hf.
  destruct (contours_of self a) as [cs|e0]; cbn [rbind];
    [|apply bind_raise, Hf].
  destruct Hf as (g & b & e & d & Hf).
  rewrite (bind_run _ _ _ _ _ Hf).
  set (h5 := h ++ [g; b; e; np_ones (3, 3); d]).
  assert (Hlen5 : List.length h5 = (List.length h + 5)%nat)
    by (unfold h5; rewrite length_app; reflexivity).
  assert (Ha5 : nth_error h5 image = Some a).
  { unfold h5. rewrite nth_error_app1; [exact Ha|].
    apply (nth_error_Some_lt _ _ _ Ha). }
  assert (Hcopy : np_copy image h5 = (h5 ++ [a], Ok (List.length h5))).
  { unfold np_copy, bind, load, alloc. rewrite Ha5. reflexivity. }
  rewrite (bind_run _ _ _ _ _ Hcopy).
  pose proof (for_each_visit_run self (List.length h5) cs [] (h5 ++ [a]) a
                (nth_error_snoc h5 a)) as Hl.
  destruct (visit_all self cs ([], a)) as [[ds img]|e0];
    [|apply bind_raise, Hl].
  rewrite (bind_run _ _ _ _ _ Hl). unfold ret. rewrite Hlen5.
  eexists. split; [reflexivity|].
  split; [|split].
  - rewrite <- Hlen5. apply nth_error_update_eq. rewrite length_app. simpl. lia.
  - rewrite length_update, length_app, Hlen5. simpl. lia.
  - intros l Hl'. rewrite nth_error_update_ne by lia.
    rewrite nth_error_app1 by lia. unfold h5. apply nth_error_app1, Hl'.
Qed.

End PureDetector.

(** ** Runs of the detector compared *)

Section Runs.

Context {cv : CV2}.

Import FloatFacts FloatTrans.

(** X6. The outcome of a call is decided by the settings and the pixels of the
    input image: two calls on images with the same pixels, anywhere in any
    two heaps, return the same defects and statistics and annotated images
    with the same pixels, or raise the same exception. *)
Theorem detect_defects_depends_on_pixels (self : DefectDetector)
    (image1 image2 : ref) (h1 h2 : heap) (a : ndarray) :
  nth_error h1 image1 = Some a -> nth_error h2 image2 = Some a ->
  let run1 := detect_defects self image1 h1 in
  let run2 := detect_defects self image2 h2 in
  findings (snd run1) = findings (snd run2) /\
  (forall r1 r2, snd run1 = Ok r1 -> snd run2 = Ok r2 ->
     nth_error (fst run1) (annotated_image r1)
     = nth_error (fst run2) (annotated_image r2)).
Proof.
  intros H1 H2 run1 run2. subst run1 run2.
  pose proof (detect_defects_run self image1 h1 a H1) as R1.
  pose proof (detect_defects_run self image2 h2 a H2) as R2.
  destruct (detect_pure self a) as [[ds img]|e].
  - destruct R1 as (h1' & -> & Hi1 & _). destruct R2 as (h2' & -> & Hi2 & _).
    simpl. split; [reflexivity|].
    intros r1 r2 E1 E2. inversion E1; inversion E2; subst; simpl.
    rewrite Hi1, Hi2. reflexivity.
  - rewrite R1, R2. split; [reflexivity|]. intros r1 r2 E1. discriminate E1.
Qed.

(** X7. A call that returned can be repeated: on the heap it left, the same call
    returns the same defects and the same statistics, and a second annotated
    image with the same pixels as the first, which it leaves in place. *)
Theorem detect_defects_repeatable (self : DefectDetector) (image : ref)
    (h h' : heap) (r : detection) :
  detect_defects self image h = (h', Ok r) ->
  exists h'' r',
    detect_defects self image h' = (h'', Ok r') /\
    defects r' = defects r /\ stats r' = stats r /\
    annotated_image r' <> annotated_image r /\
    nth_error h'' (annotated_image r') = nth_error h' (annotated_image r) /\
    nth_error h'' (annotated_image r) = nth_error h' (annotated_image r).
Proof.
  intros Hrun.
  destruct (detect_defects_Ok _ _ _ _ _ Hrun)
    as (_ & _ & a & _ & _ & Ha & _).
  pose proof (detect_defects_run self image h a Ha) as R1.
  destruct (detect_pure self a) as [[ds img]|e] eqn:Hp.
  2:{ rewrite Hrun in R1. discriminate R1. }
  destruct R1 as (h1 & R1 & Hi1 & Hlen1 & Hfr1).
  rewrite Hrun in R1. inversion R1; subst h1 r; clear R1.
  assert (Ha' : nth_error h' image = Some a).
  { rewrite (Hfr1 _ (nth_error_Some_lt _ _ _ Ha)). exact Ha. }
  pose proof (detect_defects_run self image h' a Ha') as R2.
  rewrite Hp in R2. destruct R2 as (h'' & R2 & Hi2 & Hlen2 & Hfr2).
  eexists h'', _. split; [exact R2|]. simpl.
  split; [reflexivity|]. split; [reflexivity|]. split; [lia|].
  split; [rewrite Hi2, Hi1; reflexivity|].
  apply Hfr2. lia.
Qed.

(** X8. The result passes exactly when every boundary found in the image is
    below the minimum size; the annotated image is then an unmarked copy of
    the input. *)
Theorem pass_iff_nothing_kept (self : DefectDetector) (image : ref)
    (h h' : heap) (r : detection) :
  detect_defects self image h = (h', Ok r) ->
  exists h1 contours,
    find_contours self image h = (h1, Ok contours) /\
    (pass (stats r) = true <->
     Forall (fun c => flt (contourArea c * 0.1)%float (min_defect_size self) = true)
            contours) /\
    (pass (stats r) = true -> defects r = [] /\
     nth_error h' (annotated_image r) = nth_error h image).
Proof.
  intros Hrun.
  destruct (detect_defects_Ok _ _ _ _ _ Hrun)
    as (contours & h1 & original & final & Hf & Himg & Hr & Hh1 & HF & Hp & -> & Hs).
  exists h1, contours. split; [exact Hf|].
  destruct (Forall2_describes _ _ HF) as [Hmap _].
  assert (Hpass : pass (stats r) = true <-> defects r = []).
  { rewrite Hs. simpl. destruct (defects r); simpl; split; intros H;
      try reflexivity; try discriminate H; lia. }
  split.
  - rewrite Hpass. split.
    + intros E. rewrite E in Hmap. simpl in Hmap.
      apply Forall_forall. intros c Hc.
      destruct (flt (contourArea c * 0.1) (min_defect_size self)) eqn:Ec;
        [reflexivity|].
      assert (Hin : In c (filter (keeps self) contours)).
      { apply filter_In. split; [exact Hc|]. unfold keeps. rewrite Ec. reflexivity. }
      rewrite <- Hmap in Hin. destruct Hin.
    + intros Hall.
      assert (E : filter (keeps self) contours = []).
      { clear -Hall. induction Hall as [|c cs Hc _ IH]; simpl; [reflexivity|].
        unfold keeps at 1. rewrite Hc. simpl. exact IH. }
      rewrite E in Hmap. destruct (defects r); [reflexivity|discriminate Hmap].
  - intros Hpa. apply Hpass in Hpa. split; [exact Hpa|].
    rewrite Hpa in Hp. simpl in Hp. inversion Hp; subst final.
    rewrite Hr, Himg. apply nth_error_update_eq. rewrite length_app. simpl. lia.
Qed.

(** A boundary has one description. *)
Lemma describes_functional (c : Contour) (d d' : defect) :
  describes c d -> describes c d' -> d = d'.
Proof.
  unfold describes.
  destruct d as [t am ap bb ar ci co], d' as [t' am' ap' bb' ar' ci' co'].
  simpl. destruct (boundingRect c) as [[[x y] w] hh].
  intros (-> & -> & -> & -> & Har & Hci & ->) (-> & -> & -> & -> & Har' & Hci' & ->).
  rewrite Har in Har'. rewrite Hci in Hci'.
  inversion Har'; inversion Hci'; subst. reflexivity.
Qed.

Lemma Forall2_describes_functional (cs : list Contour) (ds ds' : list defect) :
  Forall2 describes cs ds -> Forall2 describes cs ds' -> ds = ds'.
Proof.
  intros H. revert ds'. induction H as [|c d cs ds Hd _ IH]; intros ds' H'.
  - inversion H'. reflexivity.
  - inversion H' as [|? d' ? ds1 Hd' Hrest]; subst.
    rewrite (describes_functional _ _ _ Hd Hd'), (IH _ Hrest). reflexivity.
Qed.

Lemma Forall2_describes_filter (k : Contour -> bool) (cs : list Contour)
    (ds : list defect) :
  Forall2 describes cs ds ->
  Forall2 describes (filter k cs) (filter (fun d => k (d_contour d)) ds).
Proof.
  induction 1 as [|c d cs ds Hd _ IH]; simpl; [constructor|].
  pose proof Hd as (Hc & _). rewrite Hc.
  destruct (k c); [constructor; assumption | exact IH].
Qed.

(** X9. Raising the minimum size only removes defects: with the edge thresholds
    unchanged and a minimum at least as large, the defects found are the
    defects found before that still pass the size test, unchanged and in the
    same order; so there are no more of them, and a pass stays a pass. *)
Theorem raising_min_size_drops_defects (self : DefectDetector) (size : float)
    (image : ref) (h h1 h2 : heap) (r1 r2 : detection) :
  fle (min_defect_size self) size = true ->
  detect_defects self image h = (h1, Ok r1) ->
  detect_defects (update_min_defect_size self size) image h = (h2, Ok r2) ->
  defects r2
  = filter (fun d => negb (flt (d_area_mm d) size)) (defects r1) /\
  total_defects (stats r2) <= total_defects (stats r1) /\
  (pass (stats r1) = true -> pass (stats r2) = true).
Proof.
  intros Hle Hrun1 Hrun2.
  destruct (detect_defects_Ok _ _ _ _ _ Hrun1)
    as (cs1 & g1 & _ & _ & Hf1 & _ & _ & _ & HF1 & _ & _ & Hs1).
  destruct (detect_defects_Ok _ _ _ _ _ Hrun2)
    as (cs2 & g2 & _ & _ & Hf2 & _ & _ & _ & HF2 & _ & _ & Hs2).
  change (find_contours (update_min_defect_size self size) image h)
    with (find_contours self image h) in Hf2.
  rewrite Hf1 in Hf2. inversion Hf2; subst cs2 g2; clear Hf2.
  set (self2 := update_min_defect_size self size) in *.
  assert (Himp : forall c, keeps self2 c = true -> keeps self c = true).
  { intros c. unfold keeps, self2. simpl. rewrite !negb_true_iff.
    intros H2. destruct (flt (contourArea c * 0.1) (min_defect_size self)) eqn:E;
      [|reflexivity].
    rewrite (flt_fle_trans _ _ _ E Hle) in H2. discriminate H2. }
  assert (Hff : filter (keeps self2) (filter (keeps self) cs1)
                = filter (keeps self2) cs1).
  { clear -Himp. induction cs1 as [|c cs IH]; simpl; [reflexivity|].
    destruct (keeps self c) eqn:E1; simpl.
    - rewrite IH. reflexivity.
    - destruct (keeps self2 c) eqn:E2; [|exact IH].
      rewrite (Himp _ E2) in E1. discriminate E1. }
  pose proof (Forall2_describes_filter (keeps self2) _ _ HF1) as HF1'.
  rewrite Hff in HF1'.
  pose proof (Forall2_describes_functional _ _ _ HF2 HF1') as Heq.
  assert (Hfilter : defects r2
            = filter (fun d => negb (flt (d_area_mm d) size)) (defects r1)).
  { rewrite Heq. destruct (Forall2_describes _ _ HF1) as [_ Hall].
    clear -Hall. induction Hall as [|d ds Hd _ IH]; simpl; [reflexivity|].
    destruct Hd as (_ & _ & Hmm & _).
    unfold keeps at 1, self2 at 1. simpl. rewrite <- Hmm, IH. reflexivity. }
  split; [exact Hfilter|].
  assert (Hlen : (List.length (defects r2) <= List.length (defects r1))%nat).
  { rewrite Hfilter. apply filter_length_le. }
  rewrite Hs1, Hs2. simpl. split; [lia|].
  intros Hp. destruct (defects r1); [|discriminate Hp].
  simpl in Hlen. destruct (defects r2); [reflexivity|simpl in Hlen; lia].
Qed.

End Runs.

(** ** Where an exception of the detector comes from *)

Section Exceptions.

Context {cv : CV2}.

Import FloatFacts.

(** OpenCV reports its failures as [cv2.error], never as a division by
    zero. *)
Definition cv_raises_only_CvError : Prop :=
  (forall a code, cvtColor a code <> Raise ZeroDivisionError) /\
  (forall a ksize sigma, GaussianBlur a ksize sigma <> Raise ZeroDivisionError) /\
  (forall a t1 t2, Canny a t1 t2 <> Raise ZeroDivisionError) /\
  (forall a k n, dilate a k n <> Raise ZeroDivisionError) /\
  (forall a mode method, findContours a mode method <> Raise ZeroDivisionError) /\
  (forall a cs i c t, drawContours a cs i c t <> Raise ZeroDivisionError) /\
  (forall a p q c t, rectangle a p q c t <> Raise ZeroDivisionError) /\
  (forall a s p f sc c t, putText a s p f sc c t <> Raise ZeroDivisionError).

(** The aspect ratio never raises: the division is guarded by [h > 0]. *)
Lemma aspect_ratio_of_total (w h : Z) : exists ar, aspect_ratio_of w h = Ok ar.
Proof.
  unfold aspect_ratio_of, truediv_int.
  destruct (h >? 0) eqn:E; [|eauto].
  destruct (h =? 0) eqn:E0; [lia|eauto].
Qed.

(** The circularity raises only when the perimeter is positive and its
    square is zero. *)
Lemma circularity_of_raises (area_px p : float) (e : exn) :
  circularity_of area_px p = Raise e ->
  e = ZeroDivisionError /\ fgt p 0%float = true /\
  feq (p * p)%float 0%float = true.
Proof.
  unfold circularity_of, truediv.
  destruct (fgt p 0) eqn:Ep; [|discriminate].
  destruct (feq (p * p) 0) eqn:Epp; [|discriminate].
  intros H. inversion H. auto.
Qed.

Lemma contours_of_no_division (self : DefectDetector) (a : ndarray) :
  cv_raises_only_CvError -> contours_of self a <> Raise ZeroDivisionError.
Proof.
  intros (H1 & H2 & H3 & H4 & H5 & _). unfold contours_of.
  destruct (cvtColor a COLOR_BGR2GRAY) as [g|e] eqn:E1; cbn [rbind];
    [|intros H; inversion H; subst e; exact (H1 _ _ E1)].
  destruct (GaussianBlur g (5, 5) 0) as [b|e] eqn:E2; cbn [rbind];
    [|intros H; inversion H; subst e; exact (H2 _ _ _ E2)].
  destruct (Canny b (edge_threshold1 self) (edge_threshold2 self)) as [ed|e] eqn:E3;
    cbn [rbind]; [|intros H; inversion H; subst e; exact (H3 _ _ _ E3)].
  destruct (dilate ed (np_ones (3, 3)) 1) as [d|e] eqn:E4; cbn [rbind];
    [|intros H; inversion H; subst e; exact (H4 _ _ _ E4)].
  apply H5.
Qed.

Lemma paint_no_division (a : ndarray) (d : defect) :
  cv_raises_only_CvError -> paint a d <> Raise ZeroDivisionError.
Proof.
  intros (_ & _ & _ & _ & _ & H6 & H7 & H8). unfold paint.
  destruct (d_bbox d) as [[[x y] w] hh].
  destruct (drawContours a [d_contour d] (-1) (_get_defect_color (d_type d)) 2)
    as [a1|e] eqn:E1; [|rewrite <- E1; apply H6].
  destruct (rectangle a1 (x, y) (x + w, y + hh) (_get_defect_color (d_type d)) 2)
    as [a2|e] eqn:E2; [|rewrite <- E2; apply H7].
  apply H8.
Qed.

Lemma visit_pure_division (self : DefectDetector) (st : list defect * ndarray)
    (c : Contour) :
  cv_raises_only_CvError ->
  visit_pure self st c = Raise ZeroDivisionError ->
  keeps self c = true /\
  fgt (arcLength c true) 0%float = true /\
  feq (arcLength c true * arcLength c true)%float 0%float = true.
Proof.
  intros Hcv. unfold visit_pure, keeps. destruct st as [ds img].
  destruct (flt (contourArea c * 0.1) (min_defect_size self)); [discriminate|].
  destruct (boundingRect c) as [[[x y] w] hh].
  destruct (aspect_ratio_of_total w hh) as [ar ->]. cbn [rbind].
  destruct (circularity_of (contourArea c) (arcLength c true)) as [ci|e] eqn:Ec;
    cbn [rbind].
  - match goal with
    | |- rbind (paint img ?d) _ = _ -> _ =>
        pose proof (paint_no_division img d Hcv) as Hp;
        destruct (paint img d) as [img'|e]
    end; cbn [rbind]; [discriminate | congruence].
  - intros _. apply circularity_of_raises in Ec. simpl. tauto.
Qed.

Lemma visit_all_division (self : DefectDetector) (cs : list Contour) :
  cv_raises_only_CvError ->
  forall st, visit_all self cs st = Raise ZeroDivisionError ->
  exists c, In c cs /\ keeps self c = true /\
            fgt (arcLength c true) 0%float = true /\
            feq (arcLength c true * arcLength c true)%float 0%float = true.
Proof.
  intros Hcv. induction cs as [|c cs IH]; intros st; cbn [visit_all];
    [discriminate|].
  destruct (visit_pure self st c) as [st'|e] eqn:Ev; cbn [rbind].
  - intros H. destruct (IH _ H) as (c' & Hin & Hc'). exists c'. simpl. tauto.
  - intros H. inversion H; subst e.
    exists c. split; [left; reflexivity|].
    apply (visit_pure_division self st c Hcv Ev).
Qed.

(** X10. Degenerate geometry never makes the detector fail: when no OpenCV call
    raises a division by zero, the detector raises [ZeroDivisionError] only
    for a kept boundary whose perimeter is positive and so small that its
    square is zero. A bounding box of height 0 or a perimeter of 0 never
    does. *)
Theorem zero_division_only_from_tiny_perimeter (self : DefectDetector)
    (image : ref) (h : heap) :
  cv_raises_only_CvError ->
  snd (detect_defects self image h) = Raise ZeroDivisionError ->
  exists a contours c,
    nth_error h image = Some a /\
    contours_of self a = Ok contours /\
    In c contours /\ keeps self c = true /\
    fgt (arcLength c true) 0%float = true /\
    feq (arcLength c true * arcLength c true)%float 0%float = true.
Proof.
  intros Hcv Hz.
  destruct (nth_error h image) as [a|] eqn:Ha.
  2:{ rewrite (detect_defects_dangling _ _ _ Ha) in Hz. discriminate Hz. }
  pose proof (detect_defects_run self image h a Ha) as R.
  unfold detect_pure in R.
  pose proof (contours_of_no_division self a Hcv) as Hc.
  destruct (contours_of self a) as [cs|e] eqn:Ecs; cbn [rbind] in R.
  - destruct (visit_all self cs ([], a)) as [[ds img]|e] eqn:Ev.
    + destruct R as (h' & R & _). rewrite R in Hz. discriminate Hz.
    + rewrite R in Hz. inversion Hz; subst e.
      destruct (visit_all_division self cs Hcv _ Ev) as (c & Hin & Hk).
      exists a, cs, c. tauto.
  - rewrite R in Hz. congruence.
Qed.

(** X5. Every returned defect is consistent with itself: its type is the
    classification of the area, aspect ratio and circularity it records,
    one of the six categories; its pixel area and bounding box are those of
    its boundary; and its colour is not the default. *)
Theorem defect_records_consistent (self : DefectDetector) (image : ref)
    (h h' : heap) (r : detection) (d : defect) :
  detect_defects self image h = (h', Ok r) -> In d (defects r) ->
  d_type d = _classify_defect (d_area_mm d) (d_aspect_ratio d) (d_circularity d) /\
  In (d_type d)
     ["Crack"; "Hole"; "Irregular Shape"; "Misalignment"; "Large Defect";
      "Small Defect"] /\
  d_area_pixels d = contourArea (d_contour d) /\
  d_bbox d = boundingRect (d_contour d) /\
  _get_defect_color (d_type d) <> (255, 255, 255).
Proof.
  intros Hrun Hd.
  destruct (detect_defects_Ok _ _ _ _ _ Hrun)
    as (contours & h1 & original & final & _ & _ & _ & _ & HF & _).
  destruct (Forall2_describes _ _ HF) as [_ Hall].
  pose proof (proj1 (Forall_forall _ _) Hall d Hd) as (_ & Hpx & _ & Hb & _ & _ & Ht).
  assert (Hin : In (d_type d)
     ["Crack"; "Hole"; "Irregular Shape"; "Misalignment"; "Large Defect";
      "Small Defect"]) by (rewrite Ht; apply _classify_defect_range).
  repeat split; auto.
  clear -Hin. simpl in Hin.
  destruct Hin as [<-|[<-|[<-|[<-|[<-|[<-|[]]]]]]]; discriminate.
Qed.

(** X11. An image the detector cannot read makes it raise at once: a reference
    that holds no array, or an array that the colour conversion rejects,
    gives the exception as the outcome, with no result and no array
    created. *)
Theorem invalid_image_raises (self : DefectDetector) (image : ref) (h : heap) :
  (nth_error h image = None ->
   detect_defects self image h = (h, Raise CvError)) /\
  (forall a e, nth_error h image = Some a ->
     cvtColor a COLOR_BGR2GRAY = Raise e ->
     detect_defects self image h = (h, Raise e)).
Proof.
  split.
  - apply detect_defects_dangling.
  - intros a e Ha He.
    unfold detect_defects, find_contours, cv_new, bind, load, lift.
    rewrite Ha, He. reflexivity.
Qed.

End Exceptions.

(** ** The report of a detection *)

Section ReportOfDetection.

Context {cv : CV2}.
Variable strftime_now : string -> string.
Variable path_join : string -> string -> string.
Variable path_str : string -> string.

Import PyDict DictFacts.

(** Every row of the report. *)
Lemma generate_report_all_rows (self : ReportGenerator) (image_name : string)
    (r : detection) (output_file : option string) :
  snd (generate_report strftime_now path_join path_str
         self image_name r output_file)
  = [ ["Industrial Defect Detection Report"];
      ["Generated:"; strftime_now "%Y-%m-%d %H:%M:%S"];
      ["Image:"; image_name];
      [];
      ["Summary"];
      ["Total Defects:"; str_int (total_defects (stats r))];
      ["Total Defect Area (mm²):"; format_f 2 (total_area_mm (stats r))];
      ["Status:"; if pass (stats r) then "PASS" else "FAIL"];
      [];
      ["Defect Types Breakdown"] ]
    ++ map (fun p : string * Z => [fst p; str_int (snd p)]) (defect_types (stats r))
    ++ [ []; ["Detailed Defect List"]; columns ]
    ++ map (fun p => detail_row (fst p) (snd p)) (enumerate (defects r) 1).
Proof.
  unfold generate_report. cbn [snd].
  rewrite (fold_writerow _ (fun p => detail_row (fst p) (snd p))).
  2:{ intros f [i d]. unfold detail_row. cbn [fst snd].
      destruct (d_bbox d) as [[[x y] w] hh]. reflexivity. }
  rewrite (fold_writerow _ (fun p : string * Z => [fst p; str_int (snd p)])).
  2:{ intros f [t n]. reflexivity. }
  unfold writerow. cbn [app]. rewrite <- !app_assoc. reflexivity.
Qed.

(** The breakdown of a list of defects, position by position. *)
Lemma count_types_nth (ds : list defect) (k : nat) (t : string) :
  nth_error (first_seen (map d_type ds)) k = Some t ->
  nth_error (count_types ds) k = Some (t, occurrences t (map d_type ds)).
Proof.
  intros Hk.
  assert (Hkeys : keys (count_types ds) = first_seen (map d_type ds))
    by (unfold count_types; rewrite bump_keys; reflexivity).
  assert (Hget : forall x, get (count_types ds) x 0 = occurrences x (map d_type ds))
    by (intros x; unfold count_types; rewrite bump_get; reflexivity).
  rewrite <- Hkeys in Hk. unfold keys in Hk. rewrite nth_error_map in Hk.
  destruct (nth_error (count_types ds) k) as [[t' n]|] eqn:E; [|discriminate Hk].
  simpl in Hk. inversion Hk; subst t'.
  rewrite <- Hget. f_equal. f_equal. symmetry. apply get_item.
  - rewrite Hkeys. apply first_seen_NoDup.
  - apply (nth_error_In _ _ E).
Qed.

(** X12. The report of a result of the detector agrees with the result and with
    itself: the summary gives the number of defects, the sum of their areas
    with two decimals, and PASS exactly when there is no defect; the
    breakdown has one row per distinct type, in the order the types are
    first seen, with the number of defects of that type; and the detailed
    table that follows has as many rows as the summary counts. *)
Theorem report_agrees_with_detection (detector : DefectDetector) (image : ref)
    (h h' : heap) (r : detection)
    (self : ReportGenerator) (image_name : string) (output_file : option string) :
  detect_defects detector image h = (h', Ok r) ->
  let rows := snd (generate_report strftime_now path_join path_str
                     self image_name r output_file) in
  let types := map d_type (defects r) in
  nth_error rows 5
    = Some ["Total Defects:"; str_int (Z.of_nat (List.length (defects r)))] /\
  nth_error rows 6
    = Some ["Total Defect Area (mm²):";
            format_f 2 (py_sum (map d_area_mm (defects r)))] /\
  nth_error rows 7
    = Some ["Status:"; match defects r with [] => "PASS" | _ :: _ => "FAIL" end] /\
  (forall k t, nth_error (first_seen types) k = Some t ->
     nth_error rows (10 + k) = Some [t; str_int (occurrences t types)]) /\
  nth_error rows (10 + List.length (first_seen types)) = Some [] /\
  List.length rows
    = (13 + List.length (first_seen types) + List.length (defects r))%nat.
Proof.
  intros Hrun rows types. subst rows.
  rewrite generate_report_all_rows.
  destruct (detect_defects_Ok _ _ _ _ _ Hrun)
    as (_ & _ & _ & _ & _ & _ & _ & _ & _ & _ & _ & Hs).
  rewrite Hs. cbn [summary total_defects total_area_mm pass defect_types].
  assert (Hlen : List.length (count_types (defects r))
                 = List.length (first_seen types)).
  { unfold types. rewrite <- (length_map fst (count_types (defects r))).
    fold (keys (count_types (defects r))). unfold count_types.
    rewrite bump_keys. reflexivity. }
  split; [reflexivity|]. split; [reflexivity|]. split.
  { cbn [app nth_error]. destruct (defects r); reflexivity. }
  split; [|split].
  - intros k t Hk. cbn [app nth_error Nat.add].
    rewrite nth_error_app1.
    2:{ rewrite length_map, Hlen. apply nth_error_Some. congruence. }
    rewrite nth_error_map, (count_types_nth _ _ _ Hk). reflexivity.
  - cbn [app nth_error Nat.add].
    rewrite nth_error_app2 by (rewrite length_map; lia).
    rewrite length_map, Hlen, Nat.sub_diag. reflexivity.
  - rewrite !length_app, !length_map, length_enumerate, Hlen.
    simpl. lia.
Qed.

End ReportOfDetection.

(** ** The statistics panel: [DefectDetectionGUI.update_stats]

    The panel is a text widget that is emptied and then filled by successive
    [insert(tk.END, s)] calls: its content is the sequence of the strings
    inserted. [detection_results] is [None] until a detection has run. *)

Section StatsPanel.

Context {cv : CV2}.

Import PyDict DictFacts.

Definition nl : string := String (ascii_of_nat 10) "".

(** [self.stats_text.insert(tk.END, s)] *)
Definition insert_end (text : list string) (s : string) : list string :=
  text ++ [s].

Definition update_stats (detection_results : option detection) : list string :=
  let text : list string := [] in
  match detection_results with
  | None =>
      let text := insert_end text ("No detection performed yet." ++ nl)%string in
      insert_end text "Load an image and click 'Detect Defects'."
  | Some results =>
      let stats := stats results in
      let defects := defects results in
      let text := insert_end text ("=== DETECTION RESULTS ===" ++ nl ++ nl)%string in
      let text := insert_end text
        ("Total Defects: " ++ str_int (total_defects stats) ++ nl)%string in
      let text := insert_end text
        ("Total Area: " ++ format_f 2 (total_area_mm stats) ++ " mm²" ++ nl ++ nl)%string in
      let status := if pass stats then "✅ PASS" else "❌ FAIL" in
      let text := insert_end text ("Status: " ++ status ++ nl ++ nl)%string in
      let text :=
        match defect_types stats with
        | [] => text
        | _ :: _ =>
            let text := insert_end text ("Defect Types:" ++ nl)%string in
            let text :=
              fold_left
                (fun text '(defect_type, count) =>
                   insert_end text
                     ("  • " ++ defect_type ++ ": " ++ str_int count ++ nl)%string)
                (defect_types stats) text in
            insert_end text nl
        end in
      match defects with
      | [] => text
      | _ :: _ =>
          let text := insert_end text ("Defect Details:" ++ nl)%string in
          fold_left
            (fun text '(i, defect) =>
               let text := insert_end text
                 (nl ++ str_int i ++ ". " ++ d_type defect ++ nl)%string in
               let text := insert_end text
                 ("   Area: " ++ format_f 2 (d_area_mm defect) ++ " mm²" ++ nl)%string in
               let '(x, y, w, h) := d_bbox defect in
               let text := insert_end text
                 ("   Position: (" ++ str_int x ++ ", " ++ str_int y ++ ")" ++ nl)%string in
               insert_end text
                 ("   Size: " ++ str_int w ++ " x " ++ str_int h ++ " px" ++ nl)%string)
            (enumerate defects 1) text
      end
  end.

(** The four strings inserted for the defect with number [i]. *)
Definition detail_entry (i : Z) (d : defect) : list string :=
  let '(x, y, w, h) := d_bbox d in
  [ (nl ++ str_int i ++ ". " ++ d_type d ++ nl)%string;
    ("   Area: " ++ format_f 2 (d_area_mm d) ++ " mm²" ++ nl)%string;
    ("   Position: (" ++ str_int x ++ ", " ++ str_int y ++ ")" ++ nl)%string;
    ("   Size: " ++ str_int w ++ " x " ++ str_int h ++ " px" ++ nl)%string ].

Lemma fold_insert_entries {X} (step : list string -> X -> list string)
    (g : X -> list string) (xs : list X) :
  (forall text x, step text x = text ++ g x) ->
  forall text, fold_left step xs text = text ++ List.concat (map g xs).
Proof.
  intros Hstep. induction xs as [|x xs IH]; intros text; simpl.
  - rewrite app_nil_r. reflexivity.
  - rewrite IH, Hstep, <- app_assoc. reflexivity.
Qed.

Lemma nth_error_concat_entries {X} (g : X -> list string) (xs : list X)
    (k j : nat) (x : X) (s : string) :
  (forall y, List.length (g y) = 4%nat) ->
  nth_error xs k = Some x -> nth_error (g x) j = Some s ->
  nth_error (List.concat (map g xs)) (4 * k + j) = Some s.
Proof.
  intros Hlen. revert k. induction xs as [|y xs IH]; intros [|k] Hk Hj;
    simpl in Hk; try discriminate Hk.
  - inversion Hk; subst y. simpl. rewrite nth_error_app1; [exact Hj|].
    apply nth_error_Some. congruence.
  - cbn [map List.concat]. rewrite nth_error_app2 by (rewrite Hlen; lia).
    rewrite Hlen. replace (4 * S k + j - 4)%nat with (4 * k + j)%nat by lia.
    apply IH; assumption.
Qed.

Lemma length_concat_entries {X} (g : X -> list string) (xs : list X) :
  (forall y, List.length (g y) = 4%nat) ->
  List.length (List.concat (map g xs)) = (4 * List.length xs)%nat.
Proof.
  intros Hlen. induction xs as [|y xs IH]; simpl; [reflexivity|].
  rewrite length_app, Hlen, IH. lia.
Qed.

Lemma concat_singletons {X} (f : X -> string) (xs : list X) :
  List.concat (map (fun x => [f x]) xs) = map f xs.
Proof.
  induction xs as [|x xs IH]; cbn [map List.concat app]; [reflexivity|].
  rewrite IH. reflexivity.
Qed.

Lemma length_detail_entry (i : Z) (d : defect) :
  List.length (detail_entry i d) = 4%nat.
Proof. unfold detail_entry. destruct (d_bbox d) as [[[x y] w] h]. reflexivity. Qed.

(** X13. The panel for a result of the detector. Before any detection it shows
    the two lines of the invitation. For a result without defect it shows
    the title, a total of 0, an area of 0.00 and PASS, and nothing else. For
    a result with defects it shows FAIL, a section with one line per
    distinct type and a section with four lines per defect, in the order of
    [defects] and numbered from 1. *)
Theorem stats_panel_of_detection (detector : DefectDetector) (image : ref)
    (h h' : heap) (r : detection) :
  detect_defects detector image h = (h', Ok r) ->
  let panel := update_stats (Some r) in
  let types := first_seen (map d_type (defects r)) in
  (defects r = [] ->
   panel = [ ("=== DETECTION RESULTS ===" ++ nl ++ nl)%string;
             ("Total Defects: 0" ++ nl)%string;
             ("Total Area: 0.00 mm²" ++ nl ++ nl)%string;
             ("Status: ✅ PASS" ++ nl ++ nl)%string ]) /\
  (defects r <> [] ->
   nth_error panel 3 = Some ("Status: ❌ FAIL" ++ nl ++ nl)%string /\
   nth_error panel 4 = Some ("Defect Types:" ++ nl)%string /\
   (forall k t, nth_error types k = Some t ->
      nth_error panel (5 + k)
      = Some ("  • " ++ t ++ ": "
              ++ str_int (occurrences t (map d_type (defects r))) ++ nl)%string) /\
   nth_error panel (6 + List.length types) = Some ("Defect Details:" ++ nl)%string /\
   (forall k j d s, nth_error (defects r) k = Some d ->
      nth_error (detail_entry (Z.of_nat k + 1) d) j = Some s ->
      nth_error panel (7 + List.length types + 4 * k + j) = Some s) /\
   List.length panel
     = (7 + List.length types + 4 * List.length (defects r))%nat).
Proof.
  intros Hrun panel types.
  destruct (detect_defects_Ok _ _ _ _ _ Hrun)
    as (_ & _ & _ & _ & _ & _ & _ & _ & _ & _ & _ & Hs).
  subst panel types. unfold update_stats. rewrite Hs.
  cbn [summary total_defects total_area_mm pass defect_types].
  split.
  { intros E. rewrite E. reflexivity. }
  intros Hne.
  assert (Hkeys : keys (count_types (defects r))
                  = first_seen (map d_type (defects r)))
    by (unfold count_types; rewrite bump_keys; reflexivity).
  destruct (defects r) as [|d0 ds] eqn:Ed; [congruence|]. rewrite <- Ed in *.
  assert (Hdt : count_types (defects r) <> []).
  { intros E. rewrite E, Ed in Hkeys. discriminate Hkeys. }
  destruct (count_types (defects r)) as [|p0 dt] eqn:Edt; [congruence|].
  rewrite <- Edt in *.
  set (types := first_seen (map d_type (defects r))) in *.
  assert (Hlen : List.length (count_types (defects r)) = List.length types)
    by (rewrite <- Hkeys; unfold keys; rewrite length_map; reflexivity).
  rewrite (fold_insert_entries _
             (fun p : Z * defect => detail_entry (fst p) (snd p))).
  2:{ intros text [i d]. unfold detail_entry, insert_end. cbn [fst snd].
      destruct (d_bbox d) as [[[x y] w] hh]. rewrite <- !app_assoc. reflexivity. }
  rewrite (fold_insert_entries _
             (fun p : string * Z =>
                [("  • " ++ fst p ++ ": " ++ str_int (snd p) ++ nl)%string])).
  2:{ intros text [t n]. reflexivity. }
  unfold insert_end. cbn [app]. rewrite <- !app_assoc. cbn [app].
  set (lines := List.concat (map (fun p : string * Z =>
                  [("  • " ++ fst p ++ ": " ++ str_int (snd p) ++ nl)%string])
                  (count_types (defects r)))).
  assert (Hlines : lines = map (fun p : string * Z =>
                     ("  • " ++ fst p ++ ": " ++ str_int (snd p) ++ nl)%string)
                     (count_types (defects r))).
  { apply concat_singletons. }
  assert (Hll : List.length lines = List.length types)
    by (rewrite Hlines, length_map; exact Hlen).
  set (entries := List.concat (map (fun p : Z * defect => detail_entry (fst p) (snd p))
                    (enumerate (defects r) 1))).
  assert (Hz : (Z.of_nat (List.length (defects r)) =? 0) = false)
    by (rewrite Ed; reflexivity).
  rewrite Hz.
  split; [reflexivity|]. split; [reflexivity|]. split; [|split; [|split]].
  - intros k t Hk. cbn [nth_error Nat.add].
    assert (Hkt : (k < List.length types)%nat)
      by (apply nth_error_Some; congruence).
    rewrite nth_error_app1 by lia.
    rewrite Hlines, nth_error_map.
    rewrite (count_types_nth (defects r) k t Hk). reflexivity.
  - replace (6 + List.length types)%nat
      with (5 + (List.length lines + 1))%nat by lia.
    cbn [nth_error Nat.add]. rewrite nth_error_app2 by lia.
    replace (List.length lines + 1 - List.length lines)%nat with 1%nat by lia.
    reflexivity.
  - intros k j d s Hk Hj.
    remember (4 * k + j)%nat as m eqn:Em.
    replace (7 + List.length types + 4 * k + j)%nat
      with (5 + (List.length lines + (2 + m)))%nat by lia.
    cbn [nth_error Nat.add]. rewrite nth_error_app2 by lia.
    replace (List.length lines + S (S m) - List.length lines)%nat
      with (S (S m)) by lia.
    cbn [nth_error]. subst m.
    apply (nth_error_concat_entries
             (fun p : Z * defect => detail_entry (fst p) (snd p))
             (enumerate (defects r) 1) k j (Z.of_nat k + 1, d) s).
    + intros [i y]. apply length_detail_entry.
    + rewrite (nth_error_enumerate _ _ _ 1 Hk). f_equal. f_equal. lia.
    + exact Hj.
  - cbn [List.length]. rewrite length_app. cbn [List.length].
    unfold entries. rewrite length_concat_entries
      by (intros [i y]; apply length_detail_entry).
    rewrite length_enumerate. lia.
Qed.

(** Before any detection the panel shows the invitation only. *)
Lemma update_stats_None :
  update_stats None
  = [ ("No detection performed yet." ++ nl)%string;
      "Load an image and click 'Detect Defects'." ].
Proof. reflexivity. Qed.

End StatsPanel.

(** ** More runs on synthetic scenes *)

Module MoreExamples.

Import Synthetic.

Definition blank : canvas := {| regions := []; drawn := [] |}.

(** A scene whose only region is below the default minimum size. *)
Definition clean_scene : canvas := {| regions := [speck]; drawn := [] |}.

(** A region with a positive perimeter whose square underflows to zero. *)
Definition sliver : region :=
  {| r_area := 100%float; r_perimeter := 1e-200%float; r_bbox := (0, 0, 10, 0) |}.
Definition sliver_scene : canvas := {| regions := [crack; sliver]; drawn := [] |}.

(** The detection of an outcome, when it returned. *)
Definition returned (o : heap * result detection) : detection :=
  match snd o with
  | Ok r => r
  | Raise _ => {| defects := []; annotated_image := 0%nat; stats := summary [] |}
  end.

Definition clean_run : heap * result detection :=
  detect_defects init 0%nat [clean_scene].

(** The detector set to a minimum size that is not a number, on the scene
    whose only region has an area of 1.2 mm2. *)
Definition nan_detector : DefectDetector := update_min_defect_size init nan.

Definition nan_run : heap * result detection :=
  detect_defects nan_detector 0%nat [clean_scene].

Definition strict_run : heap * result detection :=
  detect_defects (update_min_defect_size init 10%float) 0%nat [scene].

(** The synthetic OpenCV, made to reject an image without content. *)
Definition strict_cv : CV2 := {|
  ndarray := canvas;
  Contour := region;
  np_ones := fun _ => blank;
  cvtColor := fun a _ =>
    match regions a, drawn a with
    | [], [] => Raise CvError
    | _, _ => Ok a
    end;
  GaussianBlur := fun a _ _ => Ok a;
  Canny := fun a _ _ => Ok a;
  dilate := fun a _ _ => Ok a;
  findContours := fun a _ _ => Ok (regions a);
  contourArea := r_area;
  boundingRect := r_bbox;
  arcLength := fun r _ => r_perimeter r;
  drawContours := fun a cs _ c _ => Ok (fold_left (fun a r => draw (Outline r c) a) cs a);
  rectangle := fun a p q c _ => Ok (draw (Box p q c) a);
  putText := fun a s p _ _ c _ => Ok (draw (Label s p c) a)
|}.

Lemma invalid_image_raises_witness :
  detect_defects (cv := strict_cv) init 3%nat [blank] = ([blank], Raise CvError) /\
  detect_defects (cv := strict_cv) init 0%nat [blank] = ([blank], Raise CvError).
Proof.
  split.
  - apply (invalid_image_raises (cv := strict_cv) init 3%nat [blank]).
    reflexivity.
  - apply (invalid_image_raises (cv := strict_cv) init 0%nat [blank]) with (a := blank);
      reflexivity.
Defined.

Lemma synthetic_raises_only_CvError : cv_raises_only_CvError (cv := cv).
Proof. repeat split; intros; discriminate. Qed.

Lemma detect_defects_depends_on_pixels_witness :
  findings (snd (detect_defects init 0%nat [scene]))
  = findings (snd (detect_defects init 1%nat [blank; scene])).
Proof.
  apply (detect_defects_depends_on_pixels (cv := cv) init 0%nat 1%nat
           [scene] [blank; scene] scene eq_refl eq_refl).
Defined.

Lemma detect_defects_repeatable_witness :
  run = (fst run, Ok found) /\
  exists h'' r',
    detect_defects init 0%nat (fst run) = (h'', Ok r') /\
    defects r' = defects found /\ stats r' = stats found /\
    annotated_image r' <> annotated_image found /\
    nth_error h'' (annotated_image r') = nth_error (fst run) (annotated_image found) /\
    nth_error h'' (annotated_image found)
    = nth_error (fst run) (annotated_image found).
Proof.
  split; [vm_compute; reflexivity|].
  apply (detect_defects_repeatable (cv := cv) init 0%nat [scene] (fst run) found).
  vm_compute; reflexivity.
Defined.

Lemma pass_iff_nothing_kept_witness :
  clean_run = (fst clean_run, Ok (returned clean_run)) /\
  pass (stats (returned clean_run)) = true /\
  exists h1 contours,
    find_contours init 0%nat [clean_scene] = (h1, Ok contours) /\
    (pass (stats (returned clean_run)) = true <->
     Forall (fun c => flt (contourArea c * 0.1)%float 5.0%float = true) contours) /\
    (pass (stats (returned clean_run)) = true ->
     defects (returned clean_run) = [] /\
     nth_error (fst clean_run) (annotated_image (returned clean_run))
     = nth_error [clean_scene] 0%nat).
Proof.
  split; [vm_compute; reflexivity|]. split; [vm_compute; reflexivity|].
  apply (pass_iff_nothing_kept (cv := cv) init 0%nat [clean_scene]
           (fst clean_run) (returned clean_run)).
  vm_compute; reflexivity.
Defined.

Lemma raising_min_size_drops_defects_witness :
  fle 5.0%float 10%float = true /\
  run = (fst run, Ok found) /\
  strict_run = (fst strict_run, Ok (returned strict_run)) /\
  defects (returned strict_run)
  = filter (fun d => negb (flt (d_area_mm d) 10%float)) (defects found) /\
  total_defects (stats (returned strict_run)) <= total_defects (stats found) /\
  (pass (stats found) = true -> pass (stats (returned strict_run)) = true).
Proof.
  split; [reflexivity|]. split; [vm_compute; reflexivity|].
  split; [vm_compute; reflexivity|].
  apply (raising_min_size_drops_defects (cv := cv) init 10%float 0%nat [scene]
           (fst run) (fst strict_run) found (returned strict_run)).
  - reflexivity.
  - vm_compute; reflexivity.
  - vm_compute; reflexivity.
Defined.

Lemma zero_division_only_from_tiny_perimeter_witness :
  snd (detect_defects init 0%nat [sliver_scene]) = Raise ZeroDivisionError /\
  exists a contours c,
    nth_error [sliver_scene] 0%nat = Some a /\
    contours_of init a = Ok contours /\
    In c contours /\ keeps init c = true /\
    fgt (arcLength c true) 0%float = true /\
    feq (arcLength c true * arcLength c true)%float 0%float = true.
Proof.
  split; [vm_compute; reflexivity|].
  apply (zero_division_only_from_tiny_perimeter (cv := cv) init 0%nat [sliver_scene]).
  - repeat split; intros; discriminate.
  - vm_compute; reflexivity.
Defined.

Lemma defect_records_consistent_witness :
  run = (fst run, Ok found) /\
  forall d, In d (defects found) ->
    d_type d = _classify_defect (d_area_mm d) (d_aspect_ratio d) (d_circularity d) /\
    In (d_type d)
       ["Crack"; "Hole"; "Irregular Shape"; "Misalignment"; "Large Defect";
        "Small Defect"] /\
    d_area_pixels d = contourArea (d_contour d) /\
    d_bbox d = boundingRect (d_contour d) /\
    _get_defect_color (d_type d) <> (255, 255, 255).
Proof.
  split; [vm_compute; reflexivity|].
  intros d Hd.
  apply (defect_records_consistent (cv := cv) init 0%nat [scene] (fst run) found d);
    [vm_compute; reflexivity | exact Hd].
Defined.

Lemma report_agrees_with_detection_witness :
  run = (fst run, Ok found) /\
  nth_error (snd report) 5 = Some ["Total Defects:"; "4"] /\
  nth_error (snd report) 7 = Some ["Status:"; "FAIL"] /\
  nth_error (snd report) 10 = Some ["Crack"; "2"] /\
  List.length (snd report) = 20%nat.
Proof.
  split; [vm_compute; reflexivity|].
  pose proof (report_agrees_with_detection (cv := cv)
                (fun fmt => fmt) (fun dir name => (dir ++ "/" ++ name)%string)
                (fun p => p) init 0%nat [scene] (fst run) found
                {| report_dir := "reports" |} "part.png" (Some "out.csv")) as H.
  destruct H as (H5 & _ & H7 & Hb & _ & Hlen); [vm_compute; reflexivity|].
  split; [exact H5|]. split; [exact H7|]. split; [|exact Hlen].
  apply (Hb 0%nat "Crack"). vm_compute; reflexivity.
Defined.

Lemma stats_panel_of_detection_witness :
  clean_run = (fst clean_run, Ok (returned clean_run)) /\
  update_stats (Some (returned clean_run))
  = [ ("=== DETECTION RESULTS ===" ++ nl ++ nl)%string;
      ("Total Defects: 0" ++ nl)%string;
      ("Total Area: 0.00 mm²" ++ nl ++ nl)%string;
      ("Status: ✅ PASS" ++ nl ++ nl)%string ].
Proof.
  split; [vm_compute; reflexivity|].
  apply (stats_panel_of_detection (cv := cv) init 0%nat [clean_scene]
           (fst clean_run) (returned clean_run));
    vm_compute; reflexivity.
Defined.

(** C2, as first stated, fails when [min_defect_size] is a NaN: the size
    test [area_mm < min_defect_size] is then false for every region, so the
    speck of 1.2 mm2 is returned as a defect, although it is below the
    default minimum and [area_mm >= min_defect_size] is false for it. *)
Lemma nan_min_size_counterexample :
  nan_run = (fst nan_run, Ok (returned nan_run)) /\
  map d_contour (defects (returned nan_run)) = [speck] /\
  total_defects (stats (returned nan_run)) = 1 /\
  (exists d, In d (defects (returned nan_run)) /\
     d_area_mm d = (12 * 0.1)%float /\
     flt (d_area_mm d) 5.0%float = true /\
     fge (d_area_mm d) (min_defect_size nan_detector) = false) /\
  ~ (forall d, In d (defects (returned nan_run)) ->
       fge (d_area_mm d) (min_defect_size nan_detector) = true).
Proof.
  split; [vm_compute; reflexivity|].
  split; [vm_compute; reflexivity|].
  split; [vm_compute; reflexivity|].
  assert (Hd : exists d, In d (defects (returned nan_run)) /\
     d_area_mm d = (12 * 0.1)%float /\
     flt (d_area_mm d) 5.0%float = true /\
     fge (d_area_mm d) (min_defect_size nan_detector) = false).
  { eexists. split; [left; reflexivity|].
    split; [|split]; vm_compute; reflexivity. }
  split; [exact Hd|].
  intros H. destruct Hd as (d & Hin & _ & _ & Hge).
  rewrite (H d Hin) in Hge. discriminate Hge.
Qed.

End MoreExamples.
